(** * Verification of the API gateway of the veterinary clinic back end

    Shallow embedding of [api_gateway/main.py]: the Redis store used for
    rate limiting and the token cache, the [httpx] client calls, the
    request middleware, the proxy, the dashboard aggregator, the health
    check and the websocket [ConnectionManager].

    Conventions of the model:
    - a Python exception is the right component of a sum; the monad [M]
      threads a [world] (Redis store, clock, network, trace of effects)
      and keeps the effects performed before an exception, as Python does;
    - the network is a function from the clock and the outgoing request to
      an outcome (a response or an [httpx] exception);
    - [logger] calls are not modelled (they have no observable effect on
      the results). *)

From stdpp Require Import base gmap strings list.
From Stdlib Require Import ZArith Ascii String Lia.

Set Warnings "-register-all".

Open Scope string_scope.
Open Scope Z_scope.

(** ** Python values *)

(** JSON documents, as [json.loads] / [response.json()] produce them. *)
Inductive json :=
| JNull
| JBool (b : bool)
| JNum (n : Z)
| JStr (s : string)
| JArr (l : list json)
| JObj (l : list (string * json)).

(** ASCII lower case, used for the case-insensitive header maps of
    Starlette and httpx. *)
Definition lower_ascii (c : ascii) : ascii :=
  let n := nat_of_ascii c in
  if (65 <=? n)%nat && (n <=? 90)%nat then ascii_of_nat (n + 32) else c.

Fixpoint lower (s : string) : string :=
  match s with
  | EmptyString => EmptyString
  | String c s' => String (lower_ascii c) (lower s')
  end.

(** [headers.get(name)] on a case-insensitive header map. *)
Fixpoint hget (name : string) (hs : list (string * string)) : option string :=
  match hs with
  | [] => None
  | (k, v) :: hs' => if String.eqb (lower k) (lower name) then Some v else hget name hs'
  end.

(** [headers[name] = v] on a case-insensitive header map: an existing
    entry of that name is replaced. *)
Definition hset (name v : string) (hs : list (string * string)) : list (string * string) :=
  List.filter (fun kv => negb (String.eqb (lower kv.1) (lower name))) hs ++ [(name, v)].

(** [dict.pop(name, None)]. *)
Definition hpop (name : string) (hs : list (string * string)) : list (string * string) :=
  List.filter (fun kv => negb (String.eqb kv.1 name)) hs.

(** [str.startswith(pre)]. *)
Fixpoint startswith (s pre : string) : bool :=
  match pre, s with
  | EmptyString, _ => true
  | String c pre', String d s' => Ascii.eqb c d && startswith s' pre'
  | String _ _, EmptyString => false
  end.

(** [s.replace(pat, rep)] for a non-empty [pat]: a left-to-right scan that
    replaces every non-overlapping occurrence.  [k] counts the characters
    of an occurrence already replaced that are still to be skipped. *)
Fixpoint replace_go (pat rep : string) (k : nat) (s : string) : string :=
  match s with
  | EmptyString => EmptyString
  | String c s' =>
      match k with
      | S k' => replace_go pat rep k' s'
      | O =>
          if startswith s pat
          then rep ++ replace_go pat rep (String.length pat - 1) s'
          else String c (replace_go pat rep O s')
      end
  end.

Definition py_replace (s pat rep : string) : string := replace_go pat rep O s.

(** ** httpx *)

(** The exception classes of httpx a request can raise. *)
Inductive httpx_exc :=
| ConnectTimeout | ReadTimeout | WriteTimeout | PoolTimeout
| ConnectError | ReadError | WriteError | CloseError
| RemoteProtocolError | LocalProtocolError | ProxyError
| UnsupportedProtocol | DecodingError | TooManyRedirects
| InvalidURL.

(** [isinstance(e, httpx.TimeoutException)]. *)
Definition is_timeout (e : httpx_exc) : bool :=
  match e with
  | ConnectTimeout | ReadTimeout | WriteTimeout | PoolTimeout => true
  | _ => false
  end.

(** [isinstance(e, httpx.RequestError)]: every class but [InvalidURL]. *)
Definition is_request_error (e : httpx_exc) : bool :=
  match e with InvalidURL => false | _ => true end.

Record out_request := {
  o_method : string;
  o_url : string;
  o_headers : list (string * string);
  o_params : list (string * string);
  o_content : option string;
  o_timeout : Z
}.

(** A received response; [hr_json] is [None] when the body is not JSON
    ([response.json()] raises). *)
Record http_response := {
  hr_status : Z;
  hr_headers : list (string * string);
  hr_json : option json;
  hr_text : string;
  hr_elapsed : Z
}.

Inductive http_outcome :=
| HResp (r : http_response)
| HRaise (e : httpx_exc).

(** ** Exceptions, effects and the world *)

Inductive exc :=
| RedisConnectionError
| RedisResponseError
| Httpx (e : httpx_exc)
| JSONDecodeError
| ValueError
| HTTPException (status : Z) (detail : string).

(** Observable effects, in order: component entries and the calls made
    to Redis and to the network. *)
Inductive event :=
| ERateCheck (identifier : string)
| EVerify
| EProxy (service : string)
| EHealth
| ECache (op key : string)
| EHttp (o : out_request).

(** Redis values: integer counters and [json.dumps] of a document. *)
Inductive rval :=
| RInt (n : Z)
| RDump (j : json).

Record entry := { e_val : rval; e_exp : option Z }.

Record world := {
  w_up : bool;                              (* Redis reachable *)
  w_store : gmap string entry;
  w_clock : Z;
  w_net : Z -> out_request -> http_outcome;
  w_log : list event
}.

Definition set_store (s : gmap string entry) (w : world) : world :=
  {| w_up := w_up w; w_store := s; w_clock := w_clock w;
     w_net := w_net w; w_log := w_log w |}.

Definition add_event (ev : event) (w : world) : world :=
  {| w_up := w_up w; w_store := w_store w; w_clock := w_clock w;
     w_net := w_net w; w_log := w_log w ++ [ev] |}.

Definition M (A : Type) : Type := world -> (A + exc) * world.

#[global] Instance M_ret : MRet M := fun A x w => (inl x, w).
#[global] Instance M_bind : MBind M := fun A B f m w =>
  match m w with
  | (inl x, w') => f x w'
  | (inr e, w') => (inr e, w')
  end.

Definition raise {A} (e : exc) : M A := fun w => (inr e, w).

(** [try: m except Exception as e: h(e)]; effects of [m] are kept. *)
Definition try_catch {A} (m : M A) (h : exc -> M A) : M A := fun w =>
  match m w with
  | (inr e, w') => h e w'
  | r => r
  end.

Definition get_world : M world := fun w => (inl w, w).
Definition emit (ev : event) : M unit := fun w => (inl tt, add_event ev w).
Definition put_store (s : gmap string entry) : M unit := fun w => (inl tt, set_store s w).

(** ** Redis *)

Definition live (w : world) (e : entry) : bool :=
  match e_exp e with None => true | Some t => w_clock w <? t end.

Definition lookup_live (w : world) (key : string) : option rval :=
  match w_store w !! key with
  | Some e => if live w e then Some (e_val e) else None
  | None => None
  end.

(** [redis_client.get(key)]. *)
Definition redis_get (key : string) : M (option rval) :=
  emit (ECache "GET" key) ;;
  w ← get_world ;
  if w_up w then mret (lookup_live w key) else raise RedisConnectionError.

(** [redis_client.setex(key, ttl, v)]. *)
Definition redis_setex (key : string) (ttl : Z) (v : rval) : M unit :=
  emit (ECache "SETEX" key) ;;
  w ← get_world ;
  if w_up w
  then put_store (<[key := {| e_val := v; e_exp := Some (w_clock w + ttl) |}]> (w_store w))
  else raise RedisConnectionError.

(** [EXPIRE key window] on the store: a non-positive TTL deletes the key. *)
Definition expire_in (w : world) (key : string) (v : rval) (window : Z)
  : gmap string entry :=
  if 0 <? window
  then <[key := {| e_val := v; e_exp := Some (w_clock w + window) |}]> (w_store w)
  else delete key (w_store w).

(** [pipe.incr(key); pipe.expire(key, window); pipe.execute()] with the
    default transactional pipeline (MULTI/EXEC): both commands run; an
    INCR on a non-integer value makes [execute] raise. Returns [result[0]]. *)
Definition redis_incr_expire (key : string) (window : Z) : M Z :=
  emit (ECache "INCR" key) ;;
  emit (ECache "EXPIRE" key) ;;
  w ← get_world ;
  if w_up w then
    match lookup_live w key with
    | None => put_store (expire_in w key (RInt 1) window) ;; mret 1
    | Some (RInt n) => put_store (expire_in w key (RInt (n + 1)) window) ;; mret (n + 1)
    | Some v => put_store (expire_in w key v window) ;; raise RedisResponseError
    end
  else raise RedisConnectionError.

(** ** Network *)

Definition http_call (o : out_request) : M http_response :=
  emit (EHttp o) ;;
  w ← get_world ;
  match w_net w (w_clock w) o with
  | HResp r => mret r
  | HRaise e => raise (Httpx e)
  end.

(** [client.get(url, headers=...)] with the client's timeout. *)
Definition http_get (timeout : Z) (url : string) (hs : list (string * string)) : M http_response :=
  http_call {| o_method := "GET"; o_url := url; o_headers := hs; o_params := [];
               o_content := None; o_timeout := timeout |}.

(** [response.json()]. *)
Definition response_json (r : http_response) : M json :=
  match hr_json r with Some j => mret j | None => raise JSONDecodeError end.

(** ** Configuration *)

Definition SERVICES : list (string * string) := [
  ("auth", "http://auth-service:8001");
  ("clients", "http://clients-pets-service:8002");
  ("appointments", "http://appointments-service:8003");
  ("medical", "http://medical-records-service:8004");
  ("billing", "http://billing-service:8005");
  ("notifications", "http://notifications-service:8006");
  ("employees", "http://employees-service:8007")
].

Fixpoint dict_get {V} (k : string) (d : list (string * V)) : option V :=
  match d with
  | [] => None
  | (k', v) :: d' => if String.eqb k k' then Some v else dict_get k d'
  end.

Definition service_url (name : string) : string :=
  match dict_get name SERVICES with Some u => u | None => "" end.

(** The default timeout of [httpx.AsyncClient()]. *)
Definition HTTPX_DEFAULT_TIMEOUT : Z := 5.

(** ** Token verification *)

(** [json.loads] of a stored value. *)
Definition loads (v : rval) : json :=
  match v with RInt n => JNum n | RDump j => j end.

(** [verify_token(request)], given the [Authorization] header. *)
Definition verify_token (authorization : option string) : M (option json) :=
  emit EVerify ;;
  match authorization with
  | None => mret None
  | Some EmptyString => mret None
  | Some token0 =>
      try_catch
        (let token := py_replace token0 "Bearer " "" in
         cached_user ← redis_get ("token:" ++ token) ;
         match cached_user with
         | Some v => mret (Some (loads v))
         | None =>
             response ← http_get HTTPX_DEFAULT_TIMEOUT (service_url "auth" ++ "/verify-token")
                                 [("Authorization", "Bearer " ++ token)] ;
             if hr_status response =? 200 then
               user_data ← response_json response ;
               redis_setex ("token:" ++ token) 600 (RDump user_data) ;;
               mret (Some user_data)
             else mret None
         end)
        (fun _ => mret None)
  end.

(** ** Requests and responses *)

Record request := {
  rq_method : string;
  rq_path : string;
  rq_headers : list (string * string);
  rq_query : list (string * string);
  rq_body : string;
  rq_client : string;              (* request.client.host *)
  rq_request_id : string           (* request.state.request_id *)
}.

Definition set_request_id (rid : string) (r : request) : request :=
  {| rq_method := rq_method r; rq_path := rq_path r; rq_headers := rq_headers r;
     rq_query := rq_query r; rq_body := rq_body r; rq_client := rq_client r;
     rq_request_id := rid |}.

Record response := {
  r_status : Z;
  r_body : json;
  r_headers : list (string * string)
}.

(** [JSONResponse(content, status_code, headers)]: Starlette adds a JSON
    content type unless the given headers carry one. *)
Definition json_response (status : Z) (content : json) (hs : list (string * string)) : response :=
  {| r_status := status; r_body := content;
     r_headers := hs ++ match hget "content-type" hs with
                        | Some _ => []
                        | None => [("content-type", "application/json")]
                        end |}.

(** Assignment [d[k] = v] on a plain (case-sensitive) Python dict. *)
Definition dict_set {V} (k : string) (v : V) (d : list (string * V)) : list (string * V) :=
  if existsb (fun kv => String.eqb kv.1 k) d
  then map (fun kv => if String.eqb kv.1 k then (k, v) else kv) d
  else d ++ [(k, v)].

(** Python truthiness of a value that may be [None]. *)
Definition truthy (u : option json) : bool :=
  match u with
  | None | Some JNull => false
  | Some (JBool b) => b
  | Some (JNum n) => negb (n =? 0)
  | Some (JStr s) => negb (String.eqb s "")
  | Some (JArr []) | Some (JObj []) => false
  | Some (JArr _) | Some (JObj _) => true
  end.

(** [try: x = m ... except Exception as e: ...] as a value. *)
Definition attempt {A} (m : M A) : M (A + exc) :=
  try_catch (x ← m ; mret (inl x)) (fun e => mret (inr e)).

(** ** Rate limiting *)

Record RateLimiter := { max_requests : Z; window : Z }.

(** [rate_limiter = RateLimiter(redis_client)] with the default arguments. *)
Definition rate_limiter : RateLimiter := {| max_requests := 100; window := 3600 |}.

(** [RateLimiter.is_allowed]. *)
Definition is_allowed (self : RateLimiter) (identifier : string) : M bool :=
  emit (ERateCheck identifier) ;;
  current_requests ← redis_incr_expire ("rate_limit:" ++ identifier) (window self) ;
  mret (current_requests <=? max_requests self).

(** [get_current_user]. *)
Definition get_current_user (req : request) : M json :=
  user ← verify_token (hget "Authorization" (rq_headers req)) ;
  if truthy user
  then mret (default JNull user)
  else raise (HTTPException 401 "Token inválido o expirado").

(** ** Proxy *)

(** [proxy_request(service_name, path, request)].  The headers of an httpx
    response are given with lower-case names, as [dict(response.headers)]
    yields them. *)
Definition proxy_request (service_name path : string) (req : request) : M response :=
  emit (EProxy service_name) ;;
  match dict_get service_name SERVICES with
  | None => raise (HTTPException 404 ("Service " ++ service_name ++ " not found"))
  | Some service_url =>
      let target_url := service_url ++ path in
      let headers := dict_set "X-Forwarded-For" (rq_client req)
                       (dict_set "X-Request-ID" (rq_request_id req) (rq_headers req)) in
      let body := if existsb (String.eqb (rq_method req)) ["POST"; "PUT"; "PATCH"]
                  then Some (rq_body req) else None in
      try_catch
        (response ← http_call {| o_method := rq_method req; o_url := target_url;
                                 o_headers := headers; o_params := rq_query req;
                                 o_content := body; o_timeout := 30 |} ;
         let response_headers :=
           hpop "transfer-encoding" (hpop "content-encoding" (hr_headers response)) in
         content ← (if startswith (default "" (hget "content-type" (hr_headers response)))
                                  "application/json"
                    then response_json response
                    else mret (JStr (hr_text response))) ;
         mret (json_response (hr_status response) content response_headers))
        (fun e =>
           match e with
           | Httpx x =>
               if is_timeout x
               then raise (HTTPException 504 ("Timeout calling " ++ service_name))
               else if is_request_error x
               then raise (HTTPException 503 ("Service " ++ service_name ++ " unavailable"))
               else raise e
           | _ => raise e
           end)
  end.

(** ** Dashboard *)

Definition dashboard_error : string := "Error fetching some dashboard data".

(** One statement of the [try] block: GET [service path], and on status 200
    [summary[key] = response.json()]. *)
Definition fetch_field (authorization : string) (call : string * string * string)
    (summary : list (string * json)) : M (list (string * json)) :=
  let '(service, path, key) := call in
  r ← http_get 10 (service_url service ++ path) [("Authorization", authorization)] ;
  if hr_status r =? 200
  then j ← response_json r ; mret (dict_set key j summary)
  else mret summary.

Definition DASHBOARD_CALLS : list (string * string * string) := [
  ("appointments", "/today", "todays_appointments");
  ("billing", "/pending", "pending_invoices");
  ("notifications", "/pending", "pending_notifications")
].

(** The [try] block run statement after statement; an exception leaves the
    rest of the block and the handler sets [summary["error"]]. *)
Fixpoint run_calls (authorization : string) (calls : list (string * string * string))
    (summary : list (string * json)) : M (list (string * json)) :=
  match calls with
  | [] => mret summary
  | c :: rest =>
      r ← attempt (fetch_field authorization c summary) ;
      match r with
      | inl summary' => run_calls authorization rest summary'
      | inr _ => mret (dict_set "error" (JStr dashboard_error) summary)
      end
  end.

(** [dashboard_summary] after its [get_current_user] dependency. *)
Definition dashboard_summary (req : request) : M json :=
  summary ← run_calls (default "" (hget "Authorization" (rq_headers req))) DASHBOARD_CALLS [] ;
  mret (JObj summary).

(** ** Health check *)

(** [str(e)] of an exception. *)
Definition exc_str (e : exc) : string :=
  match e with
  | Httpx x => if is_timeout x then "timed out" else "connection failed"
  | JSONDecodeError => "Expecting value"
  | _ => "error"
  end.

Fixpoint probe_all (services : list (string * string)) : M (list (string * json)) :=
  match services with
  | [] => mret []
  | (name, url) :: rest =>
      r ← attempt (http_get 5 (url ++ "/health") []) ;
      let entry :=
        match r with
        | inl response =>
            JObj [("status", JStr (if hr_status response =? 200 then "healthy" else "unhealthy"));
                  ("response_time", JNum (hr_elapsed response));
                  ("status_code", JNum (hr_status response))]
        | inr e => JObj [("status", JStr "unhealthy"); ("error", JStr (exc_str e))]
        end in
      others ← probe_all rest ;
      mret ((name, entry) :: others)
  end.

(** [s["status"] == "healthy"]. *)
Definition status_healthy (j : json) : bool :=
  match j with
  | JObj l => match dict_get "status" l with Some (JStr s) => String.eqb s "healthy" | _ => false end
  | _ => false
  end.

(** [health_check()]; [timestamp] is [datetime.utcnow().isoformat()]. *)
Definition health_check (timestamp : string) : M json :=
  emit EHealth ;;
  services_health ← probe_all SERVICES ;
  let all_healthy := forallb (fun kv => status_healthy kv.2)
                             services_health in
  mret (JObj [("status", JStr (if all_healthy then "healthy" else "degraded"));
              ("timestamp", JStr timestamp);
              ("services", JObj services_health)]).

(** ** Routing *)

(** FastAPI's [APIRoute] accepts exactly the methods it lists: unlike a
    plain Starlette route it does not add HEAD next to GET. *)
Definition method_ok (methods : list string) (m : string) : bool :=
  existsb (String.eqb m) methods.

Fixpoint strip_prefix (pre s : string) : option string :=
  match pre, s with
  | EmptyString, _ => Some s
  | String c pre', String d s' => if Ascii.eqb c d then strip_prefix pre' s' else None
  | String _ _, EmptyString => None
  end.

(** The public [/auth/...] routes and the path they forward to. *)
Definition AUTH_ROUTES : list (string * string) := [
  ("/auth/login", "/login");
  ("/auth/register", "/register");
  ("/auth/refresh", "/refresh");
  ("/auth/forgot-password", "/forgot-password")
].

(** The protected [/<service>/{path:path}] routes, in declaration order. *)
Definition PROTECTED : list string :=
  ["clients"; "appointments"; "medical"; "billing"; "notifications"; "employees"].

Fixpoint match_protected (services : list string) (p : string) : option (string * string) :=
  match services with
  | [] => None
  | svc :: rest =>
      match strip_prefix ("/" ++ svc ++ "/") p with
      | Some sub => Some (svc, sub)
      | None => match_protected rest p
      end
  end.

Definition method_not_allowed {A} : M A := raise (HTTPException 405 "Method Not Allowed").

(** The router: the handler of the route matching the request. The 405
    answers leave out the [Allow] header Starlette adds (its value follows
    the iteration order of a Python set). FastAPI's documentation routes
    ([/openapi.json], [/docs], [/docs/oauth2-redirect], [/redoc]) and the
    trailing-slash redirect of [redirect_slashes] concern only paths that
    none of the gateway's routes matches; they are not modelled, and such
    paths fall into the final 404 branch. *)
Definition route (timestamp : string) (req : request) : M response :=
  let p := rq_path req in
  let m := rq_method req in
  if String.eqb p "/health" then
    if method_ok ["GET"] m
    then j ← health_check timestamp ; mret (json_response 200 j [])
    else method_not_allowed
  else
  match dict_get p AUTH_ROUTES with
  | Some target =>
      if method_ok ["POST"] m then proxy_request "auth" target req else method_not_allowed
  | None =>
  match match_protected PROTECTED p with
  | Some (svc, sub) =>
      if method_ok ["GET"; "POST"; "PUT"; "DELETE"] m
      then _ ← get_current_user req ; proxy_request svc ("/" ++ sub) req
      else method_not_allowed
  | None =>
      if String.eqb p "/dashboard/summary" then
        if method_ok ["GET"] m
        then _ ← get_current_user req ; j ← dashboard_summary req ; mret (json_response 200 j [])
        else method_not_allowed
      else raise (HTTPException 404 "Not Found")
  end
  end.

(** [call_next]: the router behind Starlette's exception middleware, which
    turns an [HTTPException] into [{"detail": ...}] with its status.
    The trusted-host middleware (allowed hosts ["*"]) lets every request
    through. The CORS middleware passes a request without an [Origin]
    header through untouched; for a request with one it answers preflights
    itself and adds [Access-Control-*] headers, which is not modelled. *)
Definition app_inner (timestamp : string) (req : request) : M response :=
  try_catch (route timestamp req)
    (fun e => match e with
              | HTTPException s d => mret (json_response s (JObj [("detail", JStr d)]) [])
              | _ => raise e
              end).

(** ** Middleware *)

(** [logging_and_rate_limit_middleware]; [request_id] is the fresh
    [uuid4] and [process_time] the printed elapsed time. *)
Definition logging_and_rate_limit_middleware (request_id process_time : string)
    (call_next : request -> M response) (req : request) : M response :=
  let client_ip := rq_client req in
  let user_agent := default "unknown" (hget "user-agent" (rq_headers req)) in
  let identifier := client_ip ++ ":" ++ user_agent in
  allowed ← is_allowed rate_limiter identifier ;
  if negb allowed
  then mret (json_response 429 (JObj [("detail", JStr "Rate limit exceeded")]) [])
  else
    response ← call_next (set_request_id request_id req) ;
    mret {| r_status := r_status response; r_body := r_body response;
            r_headers := hset "X-Process-Time" process_time
                           (hset "X-Request-ID" request_id (r_headers response)) |}.

(** Starlette's plain-text 500 response. *)
Definition internal_server_error : response :=
  {| r_status := 500; r_body := JStr "Internal Server Error";
     r_headers := [("content-type", "text/plain; charset=utf-8")] |}.

(** The whole application: an exception escaping the middleware becomes
    the 500 response. *)
Definition serve (request_id process_time timestamp : string) (req : request) : M response :=
  try_catch (logging_and_rate_limit_middleware request_id process_time (app_inner timestamp) req)
    (fun _ => mret internal_server_error).

(** ** Websocket connections *)

Module ConnectionManager.

(** A websocket, compared by identity. *)
Definition conn := nat.

(** [list.remove(x)]: removes the first occurrence, [ValueError] if none. *)
Fixpoint list_remove (x : conn) (l : list conn) : option (list conn) :=
  match l with
  | [] => None
  | y :: l' => if Nat.eqb x y then Some l' else option_map (cons y) (list_remove x l')
  end.


(** [disconnect]. *)
Definition disconnect (websocket : conn) (active_connections : list conn) : list conn + exc :=
  match list_remove websocket active_connections with
  | Some l => inl l
  | None => inr ValueError
  end.

(** [broadcast]: the [for] loop over the list being mutated, as CPython runs
    it: an index into the current list, stopping when it reaches the end.
    [fails c] says whether [send_text] raises on [c]; the result is the
    final list and the connections written to, in order.  The index grows
    and the list never does, so [length] steps suffice. *)
Fixpoint broadcast_loop (fails : conn -> bool) (fuel i : nat) (active_connections : list conn)
    (sent : list conn) : (list conn * list conn) + exc :=
  match fuel with
  | O => inl (active_connections, sent)
  | S fuel' =>
      match nth_error active_connections i with
      | None => inl (active_connections, sent)
      | Some connection =>
          if fails connection
          then match list_remove connection active_connections with
               | Some l => broadcast_loop fails fuel' (S i) l sent
               | None => inr ValueError
               end
          else broadcast_loop fails fuel' (S i) active_connections (sent ++ [connection])
      end
  end.

Definition broadcast (fails : conn -> bool) (active_connections : list conn)
  : (list conn * list conn) + exc :=
  broadcast_loop fails (List.length active_connections) O active_connections [].

End ConnectionManager.



(** ** Scenario helpers *)

(** The world at another instant (time passing with no traffic). *)
Definition at_time (t : Z) (w : world) : world :=
  {| w_up := w_up w; w_store := w_store w; w_clock := t; w_net := w_net w; w_log := w_log w |}.

(** A world with an empty store at time 0. *)
Definition fresh_world (up : bool) (net : Z -> out_request -> http_outcome) : world :=
  {| w_up := up; w_store := ∅; w_clock := 0; w_net := net; w_log := [] |}.

Definition json_ok (st : Z) (j : json) : http_response :=
  {| hr_status := st; hr_headers := [("content-type", "application/json")];
     hr_json := Some j; hr_text := ""; hr_elapsed := 0 |}.

(** The request [verify_token] sends to the authentication service. *)
Definition verify_request (token : string) : out_request :=
  {| o_method := "GET"; o_url := service_url "auth" ++ "/verify-token";
     o_headers := [("Authorization", "Bearer " ++ token)]; o_params := [];
     o_content := None; o_timeout := HTTPX_DEFAULT_TIMEOUT |}.

(** A token that the authentication service accepts until [expiry]. *)
Definition sample_user : json := JObj [("id", JNum 1); ("username", JStr "vet")].

Definition token_net (expiry : Z) : Z -> out_request -> http_outcome := fun t o =>
  if String.eqb (o_url o) (service_url "auth" ++ "/verify-token")
  then if t <? expiry then HResp (json_ok 200 sample_user)
       else HResp (json_ok 401 (JObj [("detail", JStr "Token expired")]))
  else HResp (json_ok 200 (JArr [])).

(** A GET request from [1.2.3.4] without user agent. *)
Definition get_request (path : string) (hs : list (string * string)) : request :=
  {| rq_method := "GET"; rq_path := path; rq_headers := hs; rq_query := [];
     rq_body := ""; rq_client := "1.2.3.4"; rq_request_id := "" |}.

(** A world where the client [1.2.3.4] without user agent has used up its
    100 requests of the current window. *)
Definition exhausted_world (net : Z -> out_request -> http_outcome) : world :=
  {| w_up := true;
     w_store := {[ "rate_limit:1.2.3.4:unknown" := {| e_val := RInt 100; e_exp := Some 3600 |} ]};
     w_clock := 0; w_net := net; w_log := [] |}.

Definition rate_limit_exceeded : response :=
  json_response 429 (JObj [("detail", JStr "Rate limit exceeded")]) [].

(** Successive calls of [is_allowed] for one identifier at the given
    instants, with no other traffic. *)
Fixpoint calls_at (self : RateLimiter) (identifier : string) (times : list Z) (w : world)
  : list (bool + exc) * world :=
  match times with
  | [] => ([], w)
  | t :: ts =>
      let '(r, w1) := is_allowed self identifier (at_time t w) in
      let '(rs, w2) := calls_at self identifier ts w1 in
      (r :: rs, w2)
  end.

(** The rate-limit key holds, if anything, a non-negative counter. *)
Definition counter_ok (key : string) (s : gmap string entry) : Prop :=
  forall e, s !! key = Some e -> exists n, e_val e = RInt n /\ 0 <= n.

(** After [k] calls in the window starting at [t0], the counter is at
    least [k] and lives at least until the end of that window. *)
Definition counter_inv (key : string) (window_len t0 k : Z) (s : gmap string entry) : Prop :=
  0 <= k /\ counter_ok key s /\
  (0 < k -> exists n e, s !! key = Some {| e_val := RInt n; e_exp := Some e |} /\
                        k <= n /\ t0 + window_len <= e).

(** The request sent by the dashboard statement for [call]. *)
Definition dash_request (authorization : string) (call : string * string * string) : out_request :=
  let '(service, path, _) := call in
  {| o_method := "GET"; o_url := service_url service ++ path;
     o_headers := [("Authorization", authorization)]; o_params := [];
     o_content := None; o_timeout := 10 |}.

(** Whether a dashboard statement raises on this outcome: a transport
    error, or a 200 response whose body is not JSON. *)
Definition call_raises (o : http_outcome) : bool :=
  match o with
  | HRaise _ => true
  | HResp r => (hr_status r =? 200) && match hr_json r with None => true | Some _ => false end
  end.

(** The field a dashboard statement contributes on this outcome, if any. *)
Definition call_field (key : string) (o : http_outcome) : list (string * json) :=
  match o with
  | HResp r => if hr_status r =? 200
               then match hr_json r with Some j => [(key, j)] | None => [] end
               else []
  | HRaise _ => []
  end.

(** Upstreams where only the appointments service is unreachable. *)
Definition appointments_down_net : Z -> out_request -> http_outcome := fun _ o =>
  if String.eqb (o_url o) (service_url "appointments" ++ "/today")
  then HRaise ConnectError
  else HResp (json_ok 200 (JArr [])).

(** The liveness probe [client.get(f"{url}/health")] of [health_check]. *)
Definition health_request (url : string) : out_request :=
  {| o_method := "GET"; o_url := url ++ "/health"; o_headers := []; o_params := [];
     o_content := None; o_timeout := 5 |}.

(** A probe counts as healthy when it is answered with status 200. *)
Definition probe_ok (o : http_outcome) : bool :=
  match o with HResp r => hr_status r =? 200 | HRaise _ => false end.

(** The rate-limit identifier of a request in the middleware. *)
Definition client_identifier (req : request) : string :=
  rq_client req ++ ":" ++ default "unknown" (hget "user-agent" (rq_headers req)).

(** The request [proxy_request] sends to [service_url ++ path]. *)
Definition proxy_out (service_url path : string) (req : request) : out_request :=
  {| o_method := rq_method req; o_url := service_url ++ path;
     o_headers := dict_set "X-Forwarded-For" (rq_client req)
                    (dict_set "X-Request-ID" (rq_request_id req) (rq_headers req));
     o_params := rq_query req;
     o_content := if existsb (String.eqb (rq_method req)) ["POST"; "PUT"; "PATCH"]
                  then Some (rq_body req) else None;
     o_timeout := 30 |}.

(** An upstream that answers everything 200 with a JSON content type and a
    body that is not JSON. *)
Definition bad_json_net : Z -> out_request -> http_outcome := fun _ _ =>
  HResp {| hr_status := 200; hr_headers := [("content-type", "application/json")];
           hr_json := None; hr_text := "<html>"; hr_elapsed := 0 |}.

(** * Properties *)

Ltac unfold_M :=
  cbv beta iota delta [mbind M_bind mret M_ret emit get_world raise try_catch put_store
                       redis_get redis_setex redis_incr_expire http_get http_call
                       response_json attempt].

Ltac world_simpl := cbn [add_event set_store at_time w_net w_clock w_up w_store w_log fst snd].
Ltac world_simpl_in H := cbn [add_event set_store at_time w_net w_clock w_up w_store w_log fst snd] in H.

(** ** String handling *)

Lemma startswith_app (pat s : string) : startswith (pat ++ s) pat = true.
Proof.
  induction pat as [|c pat IH]; [destruct s; reflexivity|].
  simpl. rewrite Ascii.eqb_refl, IH. reflexivity.
Qed.
Lemma replace_go_cons (pat rep : string) (k : nat) (c : ascii) (s : string) :
  replace_go pat rep k (String c s) =
  match k with
  | S k' => replace_go pat rep k' s
  | O => if startswith (String c s) pat
         then rep ++ replace_go pat rep (String.length pat - 1) s
         else String c (replace_go pat rep O s)
  end.
Proof. reflexivity. Qed.

Lemma empty_append (s : string) : "" ++ s = s.
Proof. reflexivity. Qed.

Lemma replace_go_length (pat : string) (k : nat) (s : string) :
  (String.length (replace_go pat "" k s) <= String.length s)%nat.
Proof.
  revert k; induction s as [|c s IH]; intros k; [simpl; lia|].
  rewrite replace_go_cons. destruct k as [|k].
  - destruct (startswith (String c s) pat); simpl String.length.
    + specialize (IH (String.length pat - 1)%nat). rewrite empty_append. simpl. lia.
    + specialize (IH O). lia.
  - specialize (IH k). simpl. lia.
Qed.

Lemma replace_go_shrinks (pat pre post : string) :
  pat <> "" ->
  (String.length (replace_go pat "" O (pre ++ pat ++ post)) <
   String.length (pre ++ pat ++ post))%nat.
Proof.
  intros Hpat. induction pre as [|c pre IH].
  - destruct pat as [|c pat]; [congruence|].
    pose proof (startswith_app (String c pat) post) as Hs.
    change ("" ++ String c pat ++ post) with (String c (pat ++ post)).
    change (String c pat ++ post) with (String c (pat ++ post)) in Hs.
    rewrite replace_go_cons, Hs.
    pose proof (replace_go_length (String c pat) (String.length (String c pat) - 1) (pat ++ post)).
    rewrite empty_append. simpl String.length in *. lia.
  - change (String c pre ++ pat ++ post) with (String c (pre ++ pat ++ post)).
    rewrite replace_go_cons.
    destruct (startswith (String c (pre ++ pat ++ post)) pat).
    + pose proof (replace_go_length pat (String.length pat - 1) (pre ++ pat ++ post)).
      rewrite empty_append. simpl. lia.
    + simpl. lia.
Qed.

(** ** Running the token verifier and the rate limiter *)

Lemma verify_token_run (h : string) (w : world) :
  h <> "" ->
  let token := py_replace h "Bearer " "" in
  let key := "token:" ++ token in
  let w1 := add_event (ECache "GET" key) (add_event EVerify w) in
  let w2 := add_event (EHttp (verify_request token)) w1 in
  verify_token (Some h) w =
  if negb (w_up w) then (inl None, w1) else
  match lookup_live w key with
  | Some v => (inl (Some (loads v)), w1)
  | None =>
      match w_net w (w_clock w) (verify_request token) with
      | HRaise _ => (inl None, w2)
      | HResp r =>
          if hr_status r =? 200 then
            match hr_json r with
            | None => (inl None, w2)
            | Some j =>
                (inl (Some j),
                 set_store (<[key := {| e_val := RDump j; e_exp := Some (w_clock w + 600) |}]>
                              (w_store w))
                           (add_event (ECache "SETEX" key) w2))
            end
          else (inl None, w2)
      end
  end.
Proof.
  intros Hne token key w1 w2.
  destruct h as [|c h]; [congruence|].
  unfold verify_token. unfold_M. world_simpl.
  fold token. fold key.
  destruct (w_up w) eqn:Hup; [|reflexivity]. cbn -[lookup_live py_replace].
  change (lookup_live (add_event (ECache "GET" key) (add_event EVerify w)) key)
    with (lookup_live w key).
  destruct (lookup_live w key); [reflexivity|].
  change {| o_method := "GET"; o_url := "http://auth-service:8001" ++ "/verify-token";
            o_headers := [("Authorization", "Bearer " ++ token)]; o_params := [];
            o_content := None; o_timeout := HTTPX_DEFAULT_TIMEOUT |} with (verify_request token).
  world_simpl.
  destruct (w_net w (w_clock w) (verify_request token)) as [r|e]; [|reflexivity].
  cbn -[lookup_live py_replace].
  destruct (hr_status r =? 200); [|reflexivity].
  destruct (hr_json r); [|reflexivity]. world_simpl. rewrite Hup. reflexivity.
Qed.

Lemma is_allowed_run (self : RateLimiter) (identifier : string) (w : world) :
  let key := "rate_limit:" ++ identifier in
  let w1 := add_event (ECache "EXPIRE" key)
              (add_event (ECache "INCR" key) (add_event (ERateCheck identifier) w)) in
  is_allowed self identifier w =
  if negb (w_up w) then (inr RedisConnectionError, w1) else
  match lookup_live w key with
  | None => (inl (1 <=? max_requests self), set_store (expire_in w key (RInt 1) (window self)) w1)
  | Some (RInt n) =>
      (inl (n + 1 <=? max_requests self),
       set_store (expire_in w key (RInt (n + 1)) (window self)) w1)
  | Some v => (inr RedisResponseError, set_store (expire_in w key v (window self)) w1)
  end.
Proof.
  intros key w1.
  unfold is_allowed. unfold_M. world_simpl. fold key.
  destruct (w_up w); [|reflexivity]. cbn -[lookup_live].
  change (lookup_live (add_event (ECache "EXPIRE" key)
           (add_event (ECache "INCR" key) (add_event (ERateCheck identifier) w))) key)
    with (lookup_live w key).
  destruct (lookup_live w key) as [[n|j]|]; reflexivity.
Qed.

(** ** C10: the effective token *)

(** C10. Token verification uses as effective token the [Authorization]
    header with every occurrence of ["Bearer "] removed ([str.replace]):
    the cache lookup is on [token:<t>] for that value, the upstream call
    sends [Bearer <t>] for it, and a header containing ["Bearer "] anywhere
    is altered. *)
Theorem verify_token_strips_every_bearer (h : string) (w : world) :
  h <> "" ->
  let token := py_replace h "Bearer " "" in
  (exists rest, w_log (snd (verify_token (Some h) w)) =
                (w_log w ++ EVerify :: ECache "GET" ("token:" ++ token) :: rest)%list /\
     (w_up w = true -> lookup_live w ("token:" ++ token) = None ->
      exists rest', rest = EHttp (verify_request token) :: rest')) /\
  ((exists pre post, h = pre ++ "Bearer " ++ post) -> token <> h).
Proof.
  intros Hne token. split.
  - rewrite (verify_token_run h w Hne). fold token.
    destruct (w_up w) eqn:Hup; cbn [negb].
    + destruct (lookup_live w ("token:" ++ token)) eqn:Hl.
      * exists []. world_simpl. split; [rewrite <- !app_assoc; reflexivity|congruence].
      * repeat match goal with |- context [match ?x with _ => _ end] => destruct x end;
        eexists; (split; [world_simpl; rewrite <- ?app_assoc; reflexivity
                         |intros; eexists; reflexivity]).
    + exists []. world_simpl. split; [rewrite <- !app_assoc; reflexivity|congruence].
  - intros [pre [post ->]] Heq.
    pose proof (replace_go_shrinks "Bearer " pre post) as Hlt.
    unfold token, py_replace in Heq. rewrite Heq in Hlt. specialize (Hlt ltac:(discriminate)). lia.
Qed.

(** Witness of C10 on the header ["Bearer abc"]. *)
Lemma verify_token_strips_every_bearer_witness :
  "Bearer abc" <> "" /\
  ((exists pre post, "Bearer abc" = pre ++ "Bearer " ++ post) ->
   py_replace "Bearer abc" "Bearer " "" <> "Bearer abc").
Proof.
  split; [discriminate|].
  exact (proj2 (verify_token_strips_every_bearer "Bearer abc"
                  (fresh_world true (fun _ _ => HRaise ConnectError)) ltac:(discriminate))).
Defined.

(** ** C3: broadcast over a list mutated during the iteration *)

(** C3 (code bug). Broadcasting to the live list [[0; 1; 2]] where only the
    write to connection 0 fails: connection 0 is removed, the list shifts
    under the running index, and connection 1 is skipped; only connection 2
    receives the message. *)
Theorem broadcast_first_failure_skips_next :
  ConnectionManager.broadcast (fun c => Nat.eqb c 0) [0; 1; 2]%nat = inl ([1; 2]%nat, [2%nat]).
Proof. reflexivity. Qed.

(** ** C9: disconnect *)

Lemma list_remove_spec (c : ConnectionManager.conn) (l : list ConnectionManager.conn) :
  (~ In c l -> ConnectionManager.list_remove c l = None) /\
  (In c l -> exists l1 l2, l = (l1 ++ c :: l2)%list /\ ~ In c l1 /\
                           ConnectionManager.list_remove c l = Some (l1 ++ l2)%list).
Proof.
  induction l as [|y l [IHn IHi]]; simpl.
  - split; [reflexivity|tauto].
  - destruct (Nat.eqb_spec c y) as [->|Hne].
    + split; [tauto|]. intros _. exists [], l. simpl. auto.
    + split.
      * intros Hn. rewrite IHn; [reflexivity|tauto].
      * intros [->|Hi]; [congruence|].
        destruct (IHi Hi) as (l1 & l2 & -> & Hn1 & ->).
        exists (y :: l1), l2. simpl. split; [reflexivity|]. split; [|reflexivity].
        intros [->|?]; [congruence|tauto].
Qed.

(** C9 (counterexample). [disconnect] of an absent connection raises
    [ValueError], and disconnecting twice a connection present once fails
    on the second call. *)
Lemma disconnect_not_idempotent :
  ConnectionManager.disconnect 0%nat [] = inr ValueError /\
  ConnectionManager.disconnect 0%nat [0%nat] = inl [] /\
  ConnectionManager.disconnect 0%nat [] <> inl [].
Proof. split; [reflexivity|]. split; [reflexivity|]. discriminate. Qed.

(** C9 (amended). [disconnect] removes the first occurrence of a
    connection of the live list; on a connection absent from it, it raises
    [ValueError] and is no no-op. *)
Theorem disconnect_spec (c : ConnectionManager.conn) (l : list ConnectionManager.conn) :
  (~ In c l -> ConnectionManager.disconnect c l = inr ValueError) /\
  (In c l -> exists l1 l2, l = (l1 ++ c :: l2)%list /\ ~ In c l1 /\
                           ConnectionManager.disconnect c l = inl (l1 ++ l2)%list).
Proof.
  unfold ConnectionManager.disconnect.
  destruct (list_remove_spec c l) as [Hn Hi]. split.
  - intros H. rewrite (Hn H). reflexivity.
  - intros H. destruct (Hi H) as (l1 & l2 & Hl & Hn1 & Hr).
    exists l1, l2. rewrite Hr. auto.
Qed.

(** Witness of C9 (amended) on the live lists [[]] and [[3; 4]]. *)
Lemma disconnect_spec_witness :
  ~ In 4%nat [] /\ ConnectionManager.disconnect 4%nat [] = inr ValueError /\
  In 4%nat [3; 4]%nat /\
  exists l1 l2, [3; 4]%nat = (l1 ++ 4%nat :: l2)%list /\ ~ In 4%nat l1 /\
                ConnectionManager.disconnect 4%nat [3; 4]%nat = inl (l1 ++ l2)%list.
Proof.
  assert (Hn : ~ In 4%nat []) by (simpl; tauto).
  assert (Hi : In 4%nat [3; 4]%nat) by (simpl; tauto).
  split; [exact Hn|]. split; [exact (proj1 (disconnect_spec 4%nat []) Hn)|].
  split; [exact Hi|]. exact (proj2 (disconnect_spec 4%nat [3; 4]%nat) Hi).
Defined.

(** ** C5: lifetime of a cached identity *)

(** C5 (counterexample). A token valid until time 100 is verified at time
    0 and cached for 600 s; at time 200, past its expiry, the verifier still
    returns the cached identity although the authentication service now
    rejects the token. *)
Lemma cached_identity_outlives_token :
  let w0 := fresh_world true (token_net 100) in
  let w1 := snd (verify_token (Some "Bearer tok") w0) in
  fst (verify_token (Some "Bearer tok") w0) = inl (Some sample_user) /\
  w_store w1 !! "token:tok" = Some {| e_val := RDump sample_user; e_exp := Some 600 |} /\
  fst (verify_token (Some "Bearer tok") (at_time 200 w1)) = inl (Some sample_user) /\
  token_net 100 200 (verify_request "tok") =
    HResp (json_ok 401 (JObj [("detail", JStr "Token expired")])).
Proof. vm_compute. repeat split. Qed.

(** C5 (amended). An identity obtained from the authentication service is
    cached under [token:<t>] with the fixed TTL of 600 s, whatever the
    token's own validity: until 600 s after it was stored, verifying the
    same header returns it from the cache with no upstream call; from then
    on the entry is gone. *)
Theorem verify_token_caches_for_600s (h : string) (w : world) (r : http_response) (j : json) :
  h <> "" ->
  w_up w = true ->
  lookup_live w ("token:" ++ py_replace h "Bearer " "") = None ->
  w_net w (w_clock w) (verify_request (py_replace h "Bearer " "")) = HResp r ->
  hr_status r = 200 ->
  hr_json r = Some j ->
  let key := "token:" ++ py_replace h "Bearer " "" in
  exists w',
    verify_token (Some h) w = (inl (Some j), w') /\
    w_store w' !! key = Some {| e_val := RDump j; e_exp := Some (w_clock w + 600) |} /\
    (forall t, t < w_clock w + 600 ->
       verify_token (Some h) (at_time t w') =
       (inl (Some j), add_event (ECache "GET" key) (add_event EVerify (at_time t w')))) /\
    (forall t, w_clock w + 600 <= t -> lookup_live (at_time t w') key = None).
Proof.
  intros Hne Hup Hmiss Hnet Hst Hj key.
  rewrite (verify_token_run h w Hne). cbv zeta.
  rewrite Hup, Hmiss, Hnet, Hst, Hj. cbn [negb Z.eqb].
  eexists. split; [reflexivity|].
  match goal with |- w_store ?W !! _ = _ /\ _ => set (w' := W) end.
  assert (Hs : w_store w' !! key = Some {| e_val := RDump j; e_exp := Some (w_clock w + 600) |})
    by (subst w'; world_simpl; apply lookup_insert_eq).
  assert (Hupw : w_up w' = true) by (subst w'; world_simpl; exact Hup).
  split; [exact Hs|]. split.
  - intros t Ht. rewrite (verify_token_run h _ Hne). cbv zeta. fold key.
    assert (Hl : lookup_live (at_time t w') key = Some (RDump j)).
    { unfold lookup_live. change (w_store (at_time t w')) with (w_store w'). rewrite Hs.
      unfold live. cbn [e_exp w_clock at_time]. rewrite (proj2 (Z.ltb_lt _ _) Ht). reflexivity. }
    change (w_up (at_time t w')) with (w_up w'). rewrite Hupw, Hl. reflexivity.
  - intros t Ht. unfold lookup_live. change (w_store (at_time t w')) with (w_store w'). rewrite Hs.
    unfold live. cbn [e_exp w_clock at_time]. rewrite (proj2 (Z.ltb_ge _ _) Ht). reflexivity.
Qed.

(** Witness of C5 (amended): the token of [token_net 100] verified at time 0. *)
Lemma verify_token_caches_for_600s_witness :
  exists w',
    verify_token (Some "Bearer tok") (fresh_world true (token_net 100)) = (inl (Some sample_user), w') /\
    w_store w' !! "token:tok" = Some {| e_val := RDump sample_user; e_exp := Some 600 |}.
Proof.
  destruct (verify_token_caches_for_600s "Bearer tok" (fresh_world true (token_net 100))
              (json_ok 200 sample_user) sample_user ltac:(discriminate) eq_refl eq_refl eq_refl
              eq_refl eq_refl) as (w' & H1 & H2 & _).
  exists w'. split; [exact H1|exact H2].
Defined.

(** ** C2: the shared cache unavailable *)

(** C2 (counterexample). With Redis unreachable, a request to a protected
    route with a token the authentication service accepts gets the 500
    response (the rate limiter does not fail open), and the verifier alone
    returns no identity instead of asking the authentication service. *)
Lemma cache_outage_fails_request :
  let w := fresh_world false (token_net 1000) in
  fst (serve "rid" "0.001" "ts" (get_request "/clients/1" [("Authorization", "Bearer tok")]) w) =
    inl internal_server_error /\
  fst (verify_token (Some "Bearer tok") w) = inl None /\
  token_net 1000 0 (verify_request "tok") = HResp (json_ok 200 sample_user).
Proof. vm_compute. repeat split. Qed.

(** C2 (amended). When Redis is unreachable, the rate-limit check raises,
    so every request is answered with the generic 500 response; token
    verification catches the failure and returns no identity, without any
    call to the authentication service. *)
Theorem cache_outage_rejects_request (w : world) :
  w_up w = false ->
  (forall self identifier, fst (is_allowed self identifier w) = inr RedisConnectionError) /\
  (forall request_id process_time timestamp req,
     fst (serve request_id process_time timestamp req w) = inl internal_server_error) /\
  (forall h, h <> "" ->
     exists w', verify_token (Some h) w = (inl None, w') /\
                forall o, In (EHttp o) (w_log w') -> In (EHttp o) (w_log w)).
Proof.
  intros Hdown. split; [|split].
  - intros self identifier. rewrite is_allowed_run, Hdown. reflexivity.
  - intros request_id process_time timestamp req.
    unfold serve, try_catch, logging_and_rate_limit_middleware. cbv [mbind M_bind]. cbv zeta.
    rewrite is_allowed_run, Hdown. reflexivity.
  - intros h Hne. rewrite (verify_token_run h w Hne), Hdown. cbv zeta. cbn [negb].
    eexists. split; [reflexivity|].
    intros o Hin. world_simpl_in Hin. rewrite <- app_assoc in Hin. apply in_app_or in Hin.
    destruct Hin as [Hin|[Hin|[Hin|[]]]]; [exact Hin|discriminate|discriminate].
Qed.

(** Witness of C2 (amended) on an empty world with Redis down. *)
Lemma cache_outage_rejects_request_witness :
  fst (is_allowed rate_limiter "1.2.3.4:unknown" (fresh_world false (token_net 1000))) =
    inr RedisConnectionError.
Proof.
  exact (proj1 (cache_outage_rejects_request (fresh_world false (token_net 1000)) eq_refl)
           rate_limiter "1.2.3.4:unknown").
Defined.

(** ** C4: the tracing headers *)

Lemma hget_app (name : string) (l1 l2 : list (string * string)) :
  hget name (l1 ++ l2)%list = match hget name l1 with Some v => Some v | None => hget name l2 end.
Proof.
  induction l1 as [|[k v] l1 IH]; simpl; [reflexivity|].
  destruct (String.eqb (lower k) (lower name)); [reflexivity|exact IH].
Qed.

Lemma hget_hset_same (name v : string) (hs : list (string * string)) :
  hget name (hset name v hs) = Some v.
Proof.
  unfold hset. rewrite hget_app.
  assert (Hf : hget name (List.filter (fun kv => negb (String.eqb (lower kv.1) (lower name))) hs)
               = None).
  { induction hs as [|[k v'] hs IH]; simpl; [reflexivity|].
    destruct (String.eqb (lower k) (lower name)) eqn:E; simpl; [exact IH|].
    rewrite E. exact IH. }
  rewrite Hf. simpl. rewrite String.eqb_refl. reflexivity.
Qed.

Lemma hget_hset_other (name name' v : string) (hs : list (string * string)) :
  lower name <> lower name' -> hget name (hset name' v hs) = hget name hs.
Proof.
  intros Hne. unfold hset. rewrite hget_app.
  assert (Hf : hget name (List.filter (fun kv => negb (String.eqb (lower kv.1) (lower name'))) hs)
               = hget name hs).
  { induction hs as [|[k v'] hs IH]; simpl; [reflexivity|].
    destruct (String.eqb_spec (lower k) (lower name)) as [E|E];
      destruct (String.eqb_spec (lower k) (lower name')) as [E'|E']; simpl.
    - congruence.
    - rewrite (proj2 (String.eqb_eq _ _) E). reflexivity.
    - rewrite IH. reflexivity.
    - rewrite (proj2 (String.eqb_neq _ _) E). exact IH. }
  rewrite Hf. destruct (hget name hs); [reflexivity|]. simpl.
  rewrite (proj2 (String.eqb_neq _ _) (not_eq_sym Hne)). reflexivity.
Qed.

(** C4 (counterexample). A client over its quota gets the 429 response,
    which carries neither [X-Request-ID] nor [X-Process-Time]; with Redis
    unreachable the rate check raises and the client gets the plain 500
    response, which carries neither header either. *)
Lemma rate_limited_response_lacks_trace_headers :
  fst (serve "rid" "0.001" "ts" (get_request "/health" []) (exhausted_world (token_net 0))) =
    inl rate_limit_exceeded /\
  r_status rate_limit_exceeded = 429 /\
  hget "X-Request-ID" (r_headers rate_limit_exceeded) = None /\
  hget "X-Process-Time" (r_headers rate_limit_exceeded) = None /\
  fst (serve "rid" "0.001" "ts" (get_request "/health" []) (fresh_world false (token_net 0))) =
    inl internal_server_error /\
  hget "X-Request-ID" (r_headers internal_server_error) = None /\
  hget "X-Process-Time" (r_headers internal_server_error) = None.
Proof. vm_compute. repeat split. Qed.

(** A response returned by the middleware is either the 429 rate-limit
    rejection or the downstream response with both tracing headers set. *)
Lemma middleware_response_headers (request_id process_time : string)
    (call_next : request -> M response) (req : request) (w w' : world) (resp : response) :
  logging_and_rate_limit_middleware request_id process_time call_next req w = (inl resp, w') ->
  resp = rate_limit_exceeded \/
  (hget "X-Request-ID" (r_headers resp) = Some request_id /\
   hget "X-Process-Time" (r_headers resp) = Some process_time).
Proof.
  intros H. unfold logging_and_rate_limit_middleware in H. cbv [mbind M_bind] in H. cbv zeta in H.
  destruct (is_allowed rate_limiter _ w) as [[b|e] w1]; [|discriminate].
  destruct b; cbn [negb] in H.
  - destruct (call_next _ w1) as [[r|e] w2]; [|discriminate].
    cbv [mret M_ret] in H. injection H as <- _. right. cbn [r_headers]. split.
    + rewrite hget_hset_other by (vm_compute; discriminate). apply hget_hset_same.
    + apply hget_hset_same.
  - cbv [mret M_ret] in H. injection H as <- _. left. reflexivity.
Qed.

(** C4 (amended). Every response of the application carries
    [X-Request-ID] set to the request id and [X-Process-Time] set to the
    elapsed time, except two: the 429 rate-limit rejection, built before
    the request id exists, and the plain 500 response produced when an
    exception escapes the middleware (Redis unreachable during the rate
    check, or a handler raising something other than [HTTPException]). *)
Theorem serve_tracing_headers (request_id process_time timestamp : string) (req : request)
    (w w' : world) (resp : response) :
  serve request_id process_time timestamp req w = (inl resp, w') ->
  resp = rate_limit_exceeded \/ resp = internal_server_error \/
  (hget "X-Request-ID" (r_headers resp) = Some request_id /\
   hget "X-Process-Time" (r_headers resp) = Some process_time).
Proof.
  unfold serve, try_catch.
  destruct (logging_and_rate_limit_middleware request_id process_time (app_inner timestamp) req w)
    as [[r|e] w1] eqn:Hm; intros H.
  - injection H as <- _.
    destruct (middleware_response_headers _ _ _ _ _ _ _ Hm) as [H|H]; [left|right; right]; exact H.
  - cbv [mret M_ret] in H. injection H as <- _. right. left. reflexivity.
Qed.

(** Witness of C4 (amended): [GET /health] from a client within its
    quota, with every service up. *)
Lemma serve_tracing_headers_witness :
  let run := serve "rid" "0.001" "ts" (get_request "/health" []) (fresh_world true (token_net 0)) in
  let resp := match fst run with inl r => r | inr _ => rate_limit_exceeded end in
  hget "X-Request-ID" (r_headers resp) = Some "rid" /\
  hget "X-Process-Time" (r_headers resp) = Some "0.001".
Proof.
  intros run resp.
  destruct (serve_tracing_headers "rid" "0.001" "ts" (get_request "/health" [])
              (fresh_world true (token_net 0)) (snd run) resp
              ltac:(vm_compute; reflexivity)) as [H|[H|H]].
  - vm_compute in H. discriminate.
  - vm_compute in H. discriminate.
  - exact H.
Defined.

(** ** C7: failures of the proxy *)

(** C7. An unknown service yields 404, an httpx timeout 504 and any other
    httpx request error 503, each naming the service; the router's
    exception handler turns each into a client response with that status. *)
Theorem proxy_failure_statuses (service_name path : string) (req : request) (w : world)
    (e : httpx_exc) :
  (dict_get service_name SERVICES = None ->
     fst (proxy_request service_name path req w) =
       inr (HTTPException 404 ("Service " ++ service_name ++ " not found"))) /\
  (dict_get service_name SERVICES <> None ->
     (forall o, w_net w (w_clock w) o = HRaise e) ->
     is_request_error e = true ->
     fst (proxy_request service_name path req w) =
       inr (if is_timeout e
            then HTTPException 504 ("Timeout calling " ++ service_name)
            else HTTPException 503 ("Service " ++ service_name ++ " unavailable"))) /\
  (forall timestamp status detail w',
     route timestamp req w = (inr (HTTPException status detail), w') ->
     app_inner timestamp req w = (inl (json_response status (JObj [("detail", JStr detail)]) []), w')).
Proof.
  split; [|split].
  - intros Hnone. unfold proxy_request. unfold_M. world_simpl. rewrite Hnone. reflexivity.
  - intros Hsome Hnet Hreq. unfold proxy_request.
    destruct (dict_get service_name SERVICES) as [url|]; [|congruence].
    unfold_M. world_simpl. rewrite Hnet. cbn [fst].
    destruct (is_timeout e); [reflexivity|]. rewrite Hreq. reflexivity.
  - intros timestamp status detail w' H. unfold app_inner, try_catch. rewrite H. reflexivity.
Qed.

(** Witness of C7: [billing] behind a network that times out. *)
Lemma proxy_failure_statuses_witness :
  fst (proxy_request "billing" "/invoices" (get_request "/billing/invoices" [])
         (fresh_world true (fun _ _ => HRaise ReadTimeout))) =
    inr (HTTPException 504 "Timeout calling billing").
Proof.
  exact (proj1 (proj2 (proxy_failure_statuses "billing" "/invoices"
                         (get_request "/billing/invoices" [])
                         (fresh_world true (fun _ _ => HRaise ReadTimeout)) ReadTimeout))
           ltac:(discriminate) (fun _ => eq_refl) eq_refl).
Defined.

(** ** C6: the rate limiter *)

Lemma counter_inv_step (key : string) (window_len t0 t k c : Z) (s : gmap string entry) :
  0 < window_len -> t0 <= t -> counter_ok key s -> k + 1 <= c -> 0 <= k ->
  counter_inv key window_len t0 (k + 1)
    (<[key := {| e_val := RInt c; e_exp := Some (t + window_len) |}]> s).
Proof.
  intros Hw Ht Hok Hc Hk. split; [lia|]. split.
  - intros e He. destruct (decide (key = key)) as [_|]; [|congruence].
    rewrite lookup_insert_eq in He. injection He as <-. exists c. split; [reflexivity|lia].
  - intros _. exists c, (t + window_len). rewrite lookup_insert_eq. split; [reflexivity|lia].
Qed.

Lemma calls_at_counts (self : RateLimiter) (identifier : string) (t0 : Z) (ts : list Z) :
  0 < window self ->
  forall (w : world) (k : Z),
  w_up w = true ->
  Forall (fun t => t0 <= t < t0 + window self) ts ->
  counter_inv ("rate_limit:" ++ identifier) (window self) t0 k (w_store w) ->
  exists rs w', calls_at self identifier ts w = (rs, w') /\ List.length rs = List.length ts /\
    forall i b, rs !! i = Some b ->
      exists c, b = inl (c <=? max_requests self) /\ k + Z.of_nat i + 1 <= c.
Proof.
  intros Hw. induction ts as [|t ts IH]; intros w k Hup Hts Hinv.
  - exists [], w. split; [reflexivity|]. split; [reflexivity|].
    intros i b Hi. rewrite lookup_nil in Hi. discriminate.
  - apply Forall_cons_1 in Hts as [Ht Hts].
    destruct Hinv as (Hk & Hok & Hcur).
    set (key := "rate_limit:" ++ identifier) in *.
    (* the counter returned by this call *)
    assert (Hc : exists c, is_allowed self identifier (at_time t w) =
              (inl (c <=? max_requests self),
               set_store (<[key := {| e_val := RInt c; e_exp := Some (t + window self) |}]>
                            (w_store w))
                 (add_event (ECache "EXPIRE" key)
                    (add_event (ECache "INCR" key)
                       (add_event (ERateCheck identifier) (at_time t w))))) /\
              k + 1 <= c).
    { rewrite is_allowed_run. cbv zeta. fold key.
      change (w_up (at_time t w)) with (w_up w). rewrite Hup. cbn [negb].
      unfold expire_in. rewrite (proj2 (Z.ltb_lt _ _) Hw).
      unfold lookup_live, live. cbn [w_store w_clock at_time].
      destruct (w_store w !! key) as [en|] eqn:Hs.
      - destruct (Hok en Hs) as (n & Hn & Hn0).
        destruct (e_exp en) as [x|] eqn:Hx; [destruct (t <? x) eqn:Htx|].
        + rewrite Hn. exists (n + 1). split; [reflexivity|].
          destruct (Z.lt_ge_cases 0 k) as [Hk0|Hk0]; [|lia].
          destruct (Hcur Hk0) as (m & e & Hm & Hkm & _). injection Hm as Hm. subst en. cbn [e_val] in Hn. injection Hn as Hn. lia.
        + exists 1. split; [reflexivity|].
          destruct (Z.lt_ge_cases 0 k) as [Hk0|Hk0]; [|lia].
          destruct (Hcur Hk0) as (m & e & Hm & _ & He). injection Hm as Hm. subst en. cbn [e_exp] in Hx. injection Hx as Hx. subst x.
          apply Z.ltb_ge in Htx. lia.
        + rewrite Hn. exists (n + 1). split; [reflexivity|].
          destruct (Z.lt_ge_cases 0 k) as [Hk0|Hk0]; [|lia].
          destruct (Hcur Hk0) as (m & e & Hm & _ & _). injection Hm as Hm. subst en. discriminate.
      - exists 1. split; [reflexivity|].
        destruct (Z.lt_ge_cases 0 k) as [Hk0|Hk0]; [|lia].
        destruct (Hcur Hk0) as (m & e & Hm & _ & _). congruence. }
    destruct Hc as (c & Hrun & Hkc).
    set (w1 := set_store (<[key := {| e_val := RInt c; e_exp := Some (t + window self) |}]>
                            (w_store w))
                 (add_event (ECache "EXPIRE" key)
                    (add_event (ECache "INCR" key)
                       (add_event (ERateCheck identifier) (at_time t w))))) in Hrun.
    assert (Hinv1 : counter_inv key (window self) t0 (k + 1) (w_store w1)).
    { apply counter_inv_step; [exact Hw|lia|exact Hok|exact Hkc|exact Hk]. }
    destruct (IH w1 (k + 1) Hup Hts Hinv1) as (rs & w2 & Hrs & Hlen & Hcnt).
    exists (inl (c <=? max_requests self) :: rs), w2.
    split; [cbn [calls_at]; rewrite Hrun, Hrs; reflexivity|].
    split; [cbn [List.length]; rewrite Hlen; reflexivity|].
    intros [|i] b Hi.
    + cbn in Hi. injection Hi as <-. exists c. split; [reflexivity|lia].
    + cbn in Hi. destruct (Hcnt i b Hi) as (c' & -> & Hc'). exists c'. split; [reflexivity|lia].
Qed.

Lemma is_allowed_ok_store (self : RateLimiter) (identifier : string) (w w1 : world) (b : bool) :
  0 < window self ->
  is_allowed self identifier w = (inl b, w1) ->
  w_up w1 = true /\ w_clock w1 = w_clock w /\
  exists c, w_store w1 !! ("rate_limit:" ++ identifier) =
            Some {| e_val := RInt c; e_exp := Some (w_clock w + window self) |}.
Proof.
  intros Hw H. rewrite is_allowed_run in H. cbv zeta in H.
  destruct (w_up w) eqn:Hup; [|discriminate]. cbn [negb] in H.
  unfold expire_in in H. rewrite (proj2 (Z.ltb_lt _ _) Hw) in H.
  destruct (lookup_live w ("rate_limit:" ++ identifier)) as [[n|j]|];
    [injection H as _ <- | discriminate | injection H as _ <-];
    cbn [set_store add_event w_up w_clock w_store]; (split; [exact Hup|]);
    (split; [reflexivity|]); eexists; apply lookup_insert_eq.
Qed.

(** C6. For every identifier (with a positive window and a limit of at
    least one, as configured: 100 per 3600 s), and a cache that is up:
    (a) the decision is exactly [count <= max_requests], where [count] is
    the live counter plus one (one if absent), and the counter is stored
    again for a full window; (b) from any state of the counter, of
    [max_requests + 1] calls inside one window the last is denied; (c) a
    call made once the window of the previous call has elapsed, with no
    traffic in between, is allowed. *)
Theorem rate_limiter_window (self : RateLimiter) (identifier : string) :
  0 < window self -> 1 <= max_requests self ->
  let key := "rate_limit:" ++ identifier in
  (forall w, w_up w = true -> (forall j, lookup_live w key <> Some (RDump j)) ->
     exists count w', is_allowed self identifier w = (inl (count <=? max_requests self), w') /\
       count = match lookup_live w key with Some (RInt n) => n + 1 | _ => 1 end /\
       w_store w' !! key = Some {| e_val := RInt count; e_exp := Some (w_clock w + window self) |}) /\
  (forall w t0 times, w_up w = true -> counter_ok key (w_store w) ->
     List.length times = S (Z.to_nat (max_requests self)) ->
     Forall (fun t => t0 <= t < t0 + window self) times ->
     exists rs w', calls_at self identifier times w = (rs, w') /\
       rs !! Z.to_nat (max_requests self) = Some (inl false)) /\
  (forall w b w1 t, is_allowed self identifier w = (inl b, w1) ->
     w_clock w + window self <= t ->
     fst (is_allowed self identifier (at_time t w1)) = inl true).
Proof.
  intros Hw Hmax key. split; [|split].
  - intros w Hup Hj. rewrite is_allowed_run. cbv zeta. fold key. rewrite Hup. cbn [negb].
    unfold expire_in. rewrite (proj2 (Z.ltb_lt _ _) Hw).
    destruct (lookup_live w key) as [[n|j]|] eqn:Hl.
    + eexists (n + 1), _. split; [reflexivity|]. split; [reflexivity|].
      cbn [set_store w_store]. apply lookup_insert_eq.
    + exfalso. exact (Hj j eq_refl).
    + eexists 1, _. split; [reflexivity|]. split; [reflexivity|].
      cbn [set_store w_store]. apply lookup_insert_eq.
  - intros w t0 times Hup Hok Hlen Hts.
    destruct (calls_at_counts self identifier t0 times Hw w 0 Hup Hts)
      as (rs & w' & Hrun & Hlen' & Hcnt).
    { split; [lia|]. split; [exact Hok|]. intros H0. lia. }
    exists rs, w'. split; [exact Hrun|].
    destruct (rs !! Z.to_nat (max_requests self)) as [r|] eqn:Hr.
    + destruct (Hcnt _ _ Hr) as (c & -> & Hc).
      rewrite Z2Nat.id in Hc by lia. f_equal. f_equal. apply Z.leb_gt. lia.
    + apply lookup_ge_None_1 in Hr. lia.
  - intros w b w1 t H Ht.
    destruct (is_allowed_ok_store self identifier w w1 b Hw H) as (Hup1 & _ & c & Hc).
    rewrite is_allowed_run. cbv zeta.
    change (w_up (at_time t w1)) with (w_up w1). rewrite Hup1. cbn [negb].
    unfold lookup_live. change (w_store (at_time t w1)) with (w_store w1). rewrite Hc.
    unfold live. cbn [e_exp w_clock at_time].
    rewrite (proj2 (Z.ltb_ge t (w_clock w + window self)) Ht). cbn [fst].
    f_equal. apply Z.leb_le. exact Hmax.
Qed.

Lemma rate_limiter_window_witness :
  0 < window rate_limiter /\ 1 <= max_requests rate_limiter /\
  exists rs w',
    calls_at rate_limiter "1.2.3.4:curl" (List.map Z.of_nat (seq 0 101)) (fresh_world true (token_net 100)) = (rs, w') /\
    rs !! 100%nat = Some (inl false).
Proof.
  split; [vm_compute; reflexivity|]. split; [vm_compute; discriminate|].
  destruct (rate_limiter_window rate_limiter "1.2.3.4:curl" ltac:(vm_compute; reflexivity)
              ltac:(vm_compute; discriminate)) as (_ & Hb & _).
  apply (Hb (fresh_world true (token_net 100)) 0).
  - reflexivity.
  - intros e He. discriminate He.
  - reflexivity.
  - apply List.Forall_forall. intros t Ht. apply in_map_iff in Ht as (n & <- & Hn).
    apply in_seq in Hn. cbn. lia.
Defined.

(** ** C1: the dashboard summary *)

Lemma fetch_field_run (authorization : string) (call : string * string * string)
    (summary : list (string * json)) (w : world) :
  let o := dash_request authorization call in
  fetch_field authorization call summary w =
  match w_net w (w_clock w) o with
  | HRaise e => (inr (Httpx e), add_event (EHttp o) w)
  | HResp r =>
      if hr_status r =? 200
      then match hr_json r with
           | Some j => (inl (dict_set call.2 j summary), add_event (EHttp o) w)
           | None => (inr JSONDecodeError, add_event (EHttp o) w)
           end
      else (inl summary, add_event (EHttp o) w)
  end.
Proof.
  destruct call as [[service path] key]. intros o.
  unfold fetch_field. unfold_M. world_simpl.
  change {| o_method := "GET"; o_url := service_url service ++ path;
            o_headers := [("Authorization", authorization)]; o_params := [];
            o_content := None; o_timeout := 10 |} with o.
  destruct (w_net w (w_clock w) o) as [r|e]; [|reflexivity].
  destruct (hr_status r =? 200); [destruct (hr_json r)|]; reflexivity.
Qed.

Lemma run_calls_cons (authorization : string) (c : string * string * string)
    (rest : list (string * string * string)) (summary : list (string * json)) (w : world) :
  run_calls authorization (c :: rest) summary w =
  match fetch_field authorization c summary w with
  | (inl summary', w') => run_calls authorization rest summary' w'
  | (inr _, w') => (inl (dict_set "error" (JStr dashboard_error) summary), w')
  end.
Proof.
  cbn [run_calls]. unfold attempt. unfold_M.
  destruct (fetch_field authorization c summary w) as [[s'|e] w']; reflexivity.
Qed.

(** C1 (code bug). With the appointments service refusing the connection
    and the other two answering 200, the summary holds only the error
    annotation: the first failure leaves the single [try] block, so the
    invoices and notifications fields of the two services that answered
    are not returned. *)
Lemma dashboard_first_failure_drops_rest :
  fst (dashboard_summary (get_request "/dashboard/summary" [("Authorization", "Bearer tok")])
         (fresh_world true appointments_down_net))
  = inl (JObj [("error", JStr dashboard_error)]).
Proof. vm_compute. reflexivity. Qed.

(** The dashboard summary never fails as a whole. The three calls run
    in order at the same instant; a call answered with a status other than
    200 only omits its field, with no annotation; the first call that
    raises (transport error, or a 200 body that is not JSON) adds the
    ["error"] annotation after the fields of the calls before it and ends
    the block, so the fields of the later calls are omitted. *)
Theorem dashboard_summary_outcomes (req : request) (w : world) :
  let auth := default "" (hget "Authorization" (rq_headers req)) in
  let oa := w_net w (w_clock w) (dash_request auth ("appointments", "/today", "todays_appointments")) in
  let ob := w_net w (w_clock w) (dash_request auth ("billing", "/pending", "pending_invoices")) in
  let on := w_net w (w_clock w) (dash_request auth ("notifications", "/pending", "pending_notifications")) in
  let err := [("error", JStr dashboard_error)] in
  fst (dashboard_summary req w) = inl (JObj (
    if call_raises oa then err
    else if call_raises ob then call_field "todays_appointments" oa ++ err
    else if call_raises on then
      call_field "todays_appointments" oa ++ call_field "pending_invoices" ob ++ err
    else call_field "todays_appointments" oa ++ call_field "pending_invoices" ob
         ++ call_field "pending_notifications" on)).
Proof.
  intros auth oa ob on err. subst oa ob on err.
  unfold dashboard_summary. cbv [mbind M_bind mret M_ret]. fold auth.
  unfold DASHBOARD_CALLS, call_raises, call_field.
  rewrite run_calls_cons, fetch_field_run. cbv zeta.
  destruct (w_net w (w_clock w) (dash_request auth ("appointments", "/today", "todays_appointments")))
    as [ra|ea]; [destruct (hr_status ra =? 200); [destruct (hr_json ra) as [ja|]|]|];
    cbn [andb negb fst snd]; try reflexivity;
  rewrite run_calls_cons, fetch_field_run; cbv zeta; world_simpl;
  (destruct (w_net w (w_clock w) (dash_request auth ("billing", "/pending", "pending_invoices")))
    as [rb|eb]; [destruct (hr_status rb =? 200); [destruct (hr_json rb) as [jb|]|]|]);
    cbn [andb negb fst snd]; try reflexivity;
  rewrite run_calls_cons, fetch_field_run; cbv zeta; world_simpl;
  (destruct (w_net w (w_clock w) (dash_request auth ("notifications", "/pending", "pending_notifications")))
    as [rn|en]; [destruct (hr_status rn =? 200); [destruct (hr_json rn) as [jn|]|]|]);
    reflexivity.
Qed.

(** ** C8: the health route *)

Lemma probe_all_run (services : list (string * string)) (w : world) :
  exists entries w',
    probe_all services w = (inl entries, w') /\
    w_up w' = w_up w /\ w_store w' = w_store w /\ w_clock w' = w_clock w /\
    w_net w' = w_net w /\
    w_log w' = (w_log w ++ map (fun kv => EHttp (health_request kv.2)) services)%list /\
    map fst entries = map fst services /\
    map (fun kv => status_healthy kv.2) entries =
      map (fun kv => probe_ok (w_net w (w_clock w) (health_request kv.2))) services.
Proof.
  revert w. induction services as [|[name url] rest IH]; intros w.
  - exists [], w. rewrite app_nil_r. repeat split.
  - cbn [probe_all]. unfold_M. world_simpl.
    change {| o_method := "GET"; o_url := url ++ "/health"; o_headers := []; o_params := [];
              o_content := None; o_timeout := 5 |} with (health_request url).
    set (w1 := add_event (EHttp (health_request url)) w).
    destruct (IH w1) as (entries & w' & Hrun & Hup & Hst & Hcl & Hnet & Hlog & Hnames & Hst').
    assert (Hn1 : w_net w1 = w_net w) by reflexivity.
    assert (Hc1 : w_clock w1 = w_clock w) by reflexivity.
    rewrite Hn1, Hc1 in Hst'.
    destruct (w_net w (w_clock w) (health_request url)) as [r|e] eqn:Ho;
      rewrite Hrun; eexists _, w'; (split; [reflexivity|]);
      rewrite Hup, Hst, Hcl, Hnet, Hlog; cbn [w1 add_event w_up w_store w_clock w_net w_log];
      rewrite <- app_assoc; (split; [reflexivity|]); (split; [reflexivity|]);
      (split; [reflexivity|]); (split; [reflexivity|]); (split; [reflexivity|]);
      cbn [map fst snd]; rewrite ?Hnames, ?Hst', ?Ho; (split; [reflexivity|]).
    + cbn [status_healthy dict_get probe_ok].
      destruct (hr_status r =? 200); reflexivity.
    + reflexivity.
Qed.

Lemma route_health (timestamp : string) (req : request) :
  rq_path req = "/health" -> rq_method req = "GET" ->
  route timestamp req = (j ← health_check timestamp ; mret (json_response 200 j [])).
Proof.
  intros Hp Hm. unfold route. cbv zeta. rewrite Hp, Hm. reflexivity.
Qed.

(** C8 (counterexample). A GET on [/health] from a client that has used
    up its window is answered 429 by the rate limiter: the health route
    does not bypass it. *)
Lemma health_route_rate_limited :
  fst (serve "rid" "0.001" "2024-01-01T00:00:00" (get_request "/health" [])
         (exhausted_world (token_net 0)))
  = inl rate_limit_exceeded.
Proof. vm_compute. reflexivity. Qed.

Lemma is_allowed_keeps_net (self : RateLimiter) (identifier : string) (w : world) :
  w_net (snd (is_allowed self identifier w)) = w_net w /\
  w_clock (snd (is_allowed self identifier w)) = w_clock w.
Proof.
  rewrite is_allowed_run. cbv zeta.
  destruct (negb (w_up w)); [split; reflexivity|].
  destruct (lookup_live w ("rate_limit:" ++ identifier)) as [[n|j]|]; split; reflexivity.
Qed.

Lemma forallb_map_eq {A B} (f : A -> bool) (g : B -> bool) (l1 : list A) (l2 : list B) :
  map f l1 = map g l2 -> forallb f l1 = forallb g l2.
Proof.
  revert l2. induction l1 as [|x l1 IH]; intros [|y l2] H; try discriminate; [reflexivity|].
  cbn in H. injection H as Hxy Hl. cbn. rewrite Hxy, (IH l2 Hl). reflexivity.
Qed.

(** C8. A GET on [/health] goes through the rate limiter like any request
    (500 when the cache is down, 429 when the client is over its limit).
    When it is allowed, the log shows no token verification and no proxy
    call: only the health event and one probe [GET <url>/health] with a 5 s
    timeout per configured service, in order. The answer is 200 with one
    entry per service, the entry of a service is healthy exactly when its
    probe answered 200, the aggregate is ["healthy"] exactly when every
    probe did and ["degraded"] otherwise, and it carries the trace headers. *)
Theorem health_route_behaviour (rid pt ts : string) (req : request) (w : world) :
  rq_path req = "/health" -> rq_method req = "GET" ->
  let probes := map (fun kv => w_net w (w_clock w) (health_request kv.2)) SERVICES in
  match is_allowed rate_limiter (client_identifier req) w with
  | (inr _, w1) => serve rid pt ts req w = (inl internal_server_error, w1)
  | (inl false, w1) => serve rid pt ts req w = (inl rate_limit_exceeded, w1)
  | (inl true, w1) =>
      exists services w2,
      serve rid pt ts req w =
        (inl {| r_status := 200;
                r_body := JObj [("status", JStr (if forallb probe_ok probes
                                                 then "healthy" else "degraded"));
                                ("timestamp", JStr ts); ("services", JObj services)];
                r_headers := hset "X-Process-Time" pt
                               (hset "X-Request-ID" rid [("content-type", "application/json")]) |},
         w2) /\
      w_log w2 = (w_log w1 ++ EHealth :: map (fun kv => EHttp (health_request kv.2)) SERVICES)%list /\
      map fst services = map fst SERVICES /\
      map (fun kv => status_healthy kv.2) services = map probe_ok probes
  end.
Proof.
  intros Hp Hm probes. subst probes.
  destruct (is_allowed_keeps_net rate_limiter (client_identifier req) w) as [Hnet Hclk].
  unfold serve, logging_and_rate_limit_middleware. cbv zeta.
  change (rq_client req ++ ":" ++ default "unknown" (hget "user-agent" (rq_headers req)))
    with (client_identifier req).
  unfold try_catch. cbv [mbind M_bind mret M_ret].
  destruct (is_allowed rate_limiter (client_identifier req) w) as [[[|]|e] w1];
    cbn [snd] in Hnet, Hclk; cbn [negb]; [|reflexivity|reflexivity].
  unfold app_inner, try_catch.
  rewrite (route_health ts (set_request_id rid req) Hp Hm).
  unfold health_check. unfold_M. world_simpl.
  destruct (probe_all_run SERVICES (add_event EHealth w1))
    as (entries & w' & Hrun & _ & _ & _ & _ & Hlog & Hnames & Hst).
  rewrite Hrun.
  exists entries, w'. split; [|split; [|split]].
  - cbn [w_net w_clock add_event] in Hst. rewrite Hnet, Hclk in Hst.
    rewrite (forallb_map_eq _ _ _ _ Hst).
    rewrite (forallb_map_eq _ probe_ok SERVICES
               (map (fun kv => w_net w (w_clock w) (health_request kv.2)) SERVICES))
      by (rewrite map_map; reflexivity).
    reflexivity.
  - rewrite Hlog. cbn [add_event w_log]. rewrite <- app_assoc. reflexivity.
  - exact Hnames.
  - cbn [w_net w_clock add_event] in Hst. rewrite Hnet, Hclk in Hst. rewrite Hst, map_map. reflexivity.
Qed.

(** Witness of C8 (amended): a first GET on [/health], with every probe
    answered 200, is answered 200 ["healthy"] with the trace headers. *)
Lemma health_route_behaviour_witness :
  exists services w2,
    serve "rid" "0.001" "2024-01-01T00:00:00" (get_request "/health" [])
      (fresh_world true (token_net 0)) =
    (inl {| r_status := 200;
            r_body := JObj [("status", JStr "healthy"); ("timestamp", JStr "2024-01-01T00:00:00");
                            ("services", JObj services)];
            r_headers := hset "X-Process-Time" "0.001"
                           (hset "X-Request-ID" "rid" [("content-type", "application/json")]) |},
     w2).
Proof.
  pose proof (health_route_behaviour "rid" "0.001" "2024-01-01T00:00:00" (get_request "/health" [])
                (fresh_world true (token_net 0)) eq_refl eq_refl) as H.
  vm_compute in H. destruct H as (services & w2 & Hs & _).
  exists services, w2. exact Hs.
Defined.

(** * Further properties of the gateway *)

(** ** Token verification *)

Lemma verify_token_total (authorization : option string) (w : world) :
  exists u, fst (verify_token authorization w) = inl u.
Proof.
  destruct authorization as [[|c s]|]; [eexists; reflexivity| |eexists; reflexivity].
  rewrite (verify_token_run (String c s) w ltac:(discriminate)). cbv zeta.
  destruct (negb (w_up w)); [eexists; reflexivity|].
  destruct (lookup_live _ _); [eexists; reflexivity|].
  destruct (w_net _ _ _) as [r|e]; [|eexists; reflexivity].
  destruct (hr_status r =? 200); [destruct (hr_json r)|]; eexists; reflexivity.
Qed.

(** [verify_token] never raises, and each failure is turned into [None]:
    Redis unreachable, a transport error of the call to the authentication
    service, or a 200 answer whose body is not JSON. *)
Theorem verify_token_failures_give_none (h : string) (w : world) :
  h <> "" ->
  let key := "token:" ++ py_replace h "Bearer " "" in
  let call := w_net w (w_clock w) (verify_request (py_replace h "Bearer " "")) in
  (exists u, fst (verify_token (Some h) w) = inl u) /\
  (w_up w = false -> fst (verify_token (Some h) w) = inl None) /\
  (w_up w = true -> lookup_live w key = None ->
   forall e, call = HRaise e -> fst (verify_token (Some h) w) = inl None) /\
  (w_up w = true -> lookup_live w key = None ->
   forall r, call = HResp r -> hr_status r = 200 -> hr_json r = None ->
   fst (verify_token (Some h) w) = inl None).
Proof.
  intros Hh key call. split; [exact (verify_token_total (Some h) w)|].
  rewrite (verify_token_run h w Hh). subst key call. cbv zeta.
  split; [intros Hup; rewrite Hup; reflexivity|].
  split; intros Hup Hl; rewrite Hup; cbn [negb]; rewrite Hl.
  - intros e Hc. rewrite Hc. reflexivity.
  - intros r Hc Hs Hj. rewrite Hc, Hs, Hj. reflexivity.
Qed.

Lemma verify_token_failures_give_none_witness :
  fst (verify_token (Some "Bearer tok") (fresh_world false (token_net 1000))) = inl None.
Proof.
  destruct (verify_token_failures_give_none "Bearer tok" (fresh_world false (token_net 1000))
              ltac:(discriminate)) as (_ & H & _).
  exact (H eq_refl).
Defined.

(** A live cache entry [token:<t>] answers the verification: its decoded
    value is returned, with no call to the authentication service and the
    store left as it was. *)
Theorem verify_token_cache_hit (h : string) (w : world) (v : rval) :
  h <> "" -> w_up w = true ->
  lookup_live w ("token:" ++ py_replace h "Bearer " "") = Some v ->
  verify_token (Some h) w =
    (inl (Some (loads v)),
     add_event (ECache "GET" ("token:" ++ py_replace h "Bearer " "")) (add_event EVerify w)).
Proof.
  intros Hh Hup Hl. rewrite (verify_token_run h w Hh). cbv zeta.
  rewrite Hup. cbn [negb]. rewrite Hl. reflexivity.
Qed.

(** On a cache miss, unless the authentication service answers 200 with a
    JSON body, [verify_token] returns [None] after exactly one upstream
    call and caches nothing. *)
Theorem verify_token_upstream_rejects (h : string) (w : world) :
  h <> "" -> w_up w = true ->
  let token := py_replace h "Bearer " "" in
  lookup_live w ("token:" ++ token) = None ->
  (forall r, w_net w (w_clock w) (verify_request token) = HResp r ->
             hr_status r = 200 -> hr_json r = None) ->
  verify_token (Some h) w =
    (inl None,
     add_event (EHttp (verify_request token))
       (add_event (ECache "GET" ("token:" ++ token)) (add_event EVerify w))).
Proof.
  intros Hh Hup token Hl Hok. rewrite (verify_token_run h w Hh). cbv zeta. fold token.
  rewrite Hup. cbn [negb]. rewrite Hl.
  destruct (w_net w (w_clock w) (verify_request token)) as [r|e] eqn:Ho; [|reflexivity].
  destruct (hr_status r =? 200) eqn:Hs; [|reflexivity].
  rewrite (Hok r eq_refl (proj1 (Z.eqb_eq _ _) Hs)). reflexivity.
Qed.

Lemma verify_token_cache_hit_witness :
  let w := set_store {[ "token:tok" := {| e_val := RDump sample_user; e_exp := Some 600 |} ]}
             (fresh_world true (token_net 0)) in
  fst (verify_token (Some "Bearer tok") w) = inl (Some sample_user).
Proof.
  intros w.
  rewrite (verify_token_cache_hit "Bearer tok" w (RDump sample_user)
             ltac:(discriminate) eq_refl ltac:(vm_compute; reflexivity)).
  reflexivity.
Defined.

Lemma verify_token_upstream_rejects_witness :
  fst (verify_token (Some "Bearer tok") (fresh_world true (token_net 0))) = inl None.
Proof.
  rewrite (verify_token_upstream_rejects "Bearer tok" (fresh_world true (token_net 0))
             ltac:(discriminate) eq_refl ltac:(vm_compute; reflexivity)).
  - reflexivity.
  - intros r Hr Hs. vm_compute in Hr. injection Hr as <-. vm_compute in Hs. discriminate.
Defined.

(** ** Authentication dependency and routing *)

Lemma strip_prefix_app (pre s sub : string) :
  strip_prefix pre s = Some sub -> s = pre ++ sub.
Proof.
  revert s. induction pre as [|c pre IH]; intros [|d s] H; cbn in H.
  - injection H as <-. reflexivity.
  - injection H as <-. reflexivity.
  - discriminate.
  - destruct (Ascii.eqb c d) eqn:Hcd; [|discriminate].
    apply Ascii.eqb_eq in Hcd as <-. rewrite (IH s H). reflexivity.
Qed.

Lemma str_app_assoc (a b c : string) : (a ++ b) ++ c = a ++ b ++ c.
Proof.
  induction a as [|x a IH]; [reflexivity|].
  change (String x ((a ++ b) ++ c) = String x (a ++ b ++ c)). rewrite IH. reflexivity.
Qed.

Lemma match_protected_path (p svc sub : string) :
  match_protected PROTECTED p = Some (svc, sub) ->
  In svc PROTECTED /\ p = "/" ++ svc ++ "/" ++ sub.
Proof.
  generalize PROTECTED. intros l. induction l as [|s l IH]; cbn; [discriminate|].
  destruct (strip_prefix ("/" ++ s ++ "/") p) as [sub'|] eqn:Hs.
  - intros H. injection H as <- <-. split; [left; reflexivity|].
    rewrite (strip_prefix_app _ _ _ Hs). rewrite !str_app_assoc. reflexivity.
  - intros H. destruct (IH H) as [Hin Hp]. split; [right; exact Hin|exact Hp].
Qed.

(** A path under a protected prefix is neither the health route nor an
    authentication route. *)
Lemma protected_path_not_public (p svc sub : string) :
  match_protected PROTECTED p = Some (svc, sub) ->
  String.eqb p "/health" = false /\ dict_get p AUTH_ROUTES = None.
Proof.
  intros H. destruct (match_protected_path p svc sub H) as [Hin ->].
  cbn in Hin. repeat destruct Hin as [<-|Hin]; [..|contradiction];
    split; reflexivity.
Qed.

(** [get_current_user] raises nothing but the 401 exception: it returns
    the identity [verify_token] gives when that identity is truthy, and
    raises 401 when it is [None] or an empty document. *)
Theorem get_current_user_outcome (req : request) (w : world) :
  let v := verify_token (hget "Authorization" (rq_headers req)) w in
  (exists u, fst v = inl (Some u) /\ truthy (Some u) = true /\
             get_current_user req w = (inl u, snd v)) \/
  (exists u, fst v = inl u /\ truthy u = false /\
             get_current_user req w = (inr (HTTPException 401 "Token inválido o expirado"), snd v)).
Proof.
  intros v. destruct (verify_token_total (hget "Authorization" (rq_headers req)) w)
    as [u Hu].
  unfold get_current_user. cbv [mbind M_bind mret M_ret raise]. subst v.
  destruct (verify_token (hget "Authorization" (rq_headers req)) w) as [[u'|e] w1];
    cbn [fst] in Hu; [|discriminate]. injection Hu as ->.
  destruct (truthy u) eqn:Ht.
  - left. destruct u as [j|]; [|discriminate]. exists j. repeat split. exact Ht.
  - right. exists u. repeat split. exact Ht.
Qed.

(** The four [/auth/...] routes answer POST by forwarding to the matching
    path of the authentication service, with no token verification. *)
Theorem auth_routes_forward_without_verification (timestamp : string) (req : request)
    (path target : string) :
  In (path, target) AUTH_ROUTES -> rq_path req = path -> rq_method req = "POST" ->
  route timestamp req = proxy_request "auth" target req.
Proof.
  intros Hin Hp Hm. unfold route. cbv zeta. rewrite Hp, Hm.
  cbn in Hin. repeat destruct Hin as [Hin|Hin]; try contradiction;
    injection Hin as <- <-; reflexivity.
Qed.

(** A request without an [Origin] header (so that the CORS middleware
    passes it through) to a protected service route, or to the dashboard,
    with an accepted method but without a valid identity ([verify_token]
    gives [None] or an empty document) is answered 401 [{"detail": ...}]:
    the only effects are those of the verification, the service is never
    called. *)
Theorem protected_routes_require_token (timestamp : string) (req : request) (w : world)
    (u : option json) :
  hget "origin" (rq_headers req) = None ->
  (match_protected PROTECTED (rq_path req) <> None /\
   method_ok ["GET"; "POST"; "PUT"; "DELETE"] (rq_method req) = true) \/
  (rq_path req = "/dashboard/summary" /\ method_ok ["GET"] (rq_method req) = true) ->
  fst (verify_token (hget "Authorization" (rq_headers req)) w) = inl u ->
  truthy u = false ->
  app_inner timestamp req w =
    (inl (json_response 401 (JObj [("detail", JStr "Token inválido o expirado")]) []),
     snd (verify_token (hget "Authorization" (rq_headers req)) w)).
Proof.
  intros _ Hcase Hu Ht. unfold app_inner, try_catch, route. cbv zeta.
  destruct Hcase as [[Hm Hmeth]|[Hp Hmeth]].
  - destruct (match_protected PROTECTED (rq_path req)) as [[svc sub]|] eqn:Hmp; [|congruence].
    destruct (protected_path_not_public _ _ _ Hmp) as [Hh Ha].
    rewrite Hh, Ha, Hmeth.
    unfold get_current_user. cbv [mbind M_bind mret M_ret raise].
    destruct (verify_token (hget "Authorization" (rq_headers req)) w) as [[u'|e] w1];
      cbn [fst] in Hu; [|discriminate]. injection Hu as ->. rewrite Ht. reflexivity.
  - rewrite Hp, Hmeth.
    assert (E1 : String.eqb "/dashboard/summary" "/health" = false) by reflexivity.
    assert (E2 : dict_get "/dashboard/summary" AUTH_ROUTES = None) by reflexivity.
    assert (E3 : match_protected PROTECTED "/dashboard/summary" = None) by reflexivity.
    rewrite E1, E2, E3. cbv iota. rewrite String.eqb_refl.
    unfold get_current_user. cbv [mbind M_bind mret M_ret raise].
    destruct (verify_token (hget "Authorization" (rq_headers req)) w) as [[u'|e] w1];
      cbn [fst] in Hu; [|discriminate]. injection Hu as ->. rewrite Ht. reflexivity.
Qed.

(** A request without an [Origin] header to a protected service route
    with a method the route does not list (PATCH, HEAD or OPTIONS, for
    instance) is answered 405 [{"detail": "Method Not Allowed"}] with no
    effect at all: neither the token nor the service is looked at. *)
Theorem protected_routes_method_not_allowed (timestamp : string) (req : request) (w : world)
    (svc sub : string) :
  hget "origin" (rq_headers req) = None ->
  match_protected PROTECTED (rq_path req) = Some (svc, sub) ->
  method_ok ["GET"; "POST"; "PUT"; "DELETE"] (rq_method req) = false ->
  exists resp, app_inner timestamp req w = (inl resp, w) /\
    r_status resp = 405 /\ r_body resp = JObj [("detail", JStr "Method Not Allowed")].
Proof.
  intros _ Hmp Hmeth. unfold app_inner, try_catch, route. cbv zeta.
  destruct (protected_path_not_public _ _ _ Hmp) as [Hh Ha].
  rewrite Hh, Ha, Hmp, Hmeth. eexists. split; [reflexivity|]. split; reflexivity.
Qed.

Lemma auth_routes_forward_without_verification_witness :
  let req := {| rq_method := "POST"; rq_path := "/auth/login"; rq_headers := [];
                rq_query := []; rq_body := "{}"; rq_client := "1.2.3.4"; rq_request_id := "" |} in
  route "ts" req = proxy_request "auth" "/login" req.
Proof.
  intros req. apply (auth_routes_forward_without_verification "ts" req "/auth/login" "/login").
  - left. reflexivity.
  - reflexivity.
  - reflexivity.
Defined.

Lemma protected_routes_require_token_witness :
  fst (app_inner "ts" (get_request "/clients/1" []) (fresh_world true (token_net 0))) =
    inl (json_response 401 (JObj [("detail", JStr "Token inválido o expirado")]) []).
Proof.
  rewrite (protected_routes_require_token "ts" (get_request "/clients/1" [])
             (fresh_world true (token_net 0)) None).
  - reflexivity.
  - reflexivity.
  - left. split; [discriminate|reflexivity].
  - reflexivity.
  - reflexivity.
Defined.

Lemma protected_routes_method_not_allowed_witness :
  let req := {| rq_method := "HEAD"; rq_path := "/billing/invoices/7"; rq_headers := [];
                rq_query := []; rq_body := ""; rq_client := "1.2.3.4"; rq_request_id := "" |} in
  exists resp, app_inner "ts" req (fresh_world true (token_net 0)) =
    (inl resp, fresh_world true (token_net 0)) /\ r_status resp = 405.
Proof.
  intros req.
  destruct (protected_routes_method_not_allowed "ts" req (fresh_world true (token_net 0))
             "billing" "invoices/7" eq_refl eq_refl eq_refl) as (resp & Hrun & Hs & _).
  exists resp. split; assumption.
Defined.

(** ** Proxy *)

Lemma dict_get_app {V} (k : string) (d1 d2 : list (string * V)) :
  dict_get k (d1 ++ d2)%list = match dict_get k d1 with Some v => Some v | None => dict_get k d2 end.
Proof.
  induction d1 as [|[k' v] d1 IH]; cbn; [reflexivity|].
  destruct (String.eqb k k'); [reflexivity|exact IH].
Qed.

Lemma dict_get_set_same {V} (k : string) (v : V) (d : list (string * V)) :
  dict_get k (dict_set k v d) = Some v.
Proof.
  unfold dict_set. destruct (existsb (fun kv => String.eqb kv.1 k) d) eqn:He.
  - induction d as [|[k' v'] d IH]; cbn in He; [discriminate|].
    cbn. destruct (String.eqb k' k) eqn:Hk; cbn.
    + rewrite String.eqb_refl. reflexivity.
    + rewrite String.eqb_sym, Hk. exact (IH He).
  - rewrite dict_get_app.
    assert (Hn : dict_get k d = None).
    { induction d as [|[k' v'] d IH]; cbn in He |- *; [reflexivity|].
      apply Bool.orb_false_iff in He as [Hk He].
      rewrite String.eqb_sym, Hk. exact (IH He). }
    rewrite Hn. cbn. rewrite String.eqb_refl. reflexivity.
Qed.

Lemma dict_get_set_other {V} (k k' : string) (v : V) (d : list (string * V)) :
  k <> k' -> dict_get k (dict_set k' v d) = dict_get k d.
Proof.
  intros Hne. apply String.eqb_neq in Hne.
  unfold dict_set. destruct (existsb (fun kv => String.eqb kv.1 k') d).
  - induction d as [|[k1 v1] d IH]; cbn; [reflexivity|].
    destruct (String.eqb k1 k') eqn:H1; cbn.
    + apply String.eqb_eq in H1 as ->. rewrite Hne. exact IH.
    + destruct (String.eqb k k1); [reflexivity|exact IH].
  - rewrite dict_get_app. destruct (dict_get k d); [reflexivity|]. cbn. rewrite Hne. reflexivity.
Qed.

Lemma dict_get_hpop (k k' : string) (hs : list (string * string)) :
  dict_get k (hpop k' hs) = if String.eqb k k' then None else dict_get k hs.
Proof.
  unfold hpop. induction hs as [|[k1 v1] hs IH]; cbn; [destruct (String.eqb k k'); reflexivity|].
  destruct (String.eqb k1 k') eqn:H1; cbn.
  - rewrite IH. apply String.eqb_eq in H1 as ->. destruct (String.eqb k k'); reflexivity.
  - destruct (String.eqb k k1) eqn:Hk1.
    + apply String.eqb_eq in Hk1 as ->. rewrite H1. reflexivity.
    + exact IH.
Qed.

Lemma proxy_request_run (service_name path base : string) (req : request) (w : world) :
  dict_get service_name SERVICES = Some base ->
  let o := proxy_out base path req in
  let w1 := add_event (EHttp o) (add_event (EProxy service_name) w) in
  proxy_request service_name path req w =
  match w_net w (w_clock w) o with
  | HRaise e =>
      (inr (if is_timeout e then HTTPException 504 ("Timeout calling " ++ service_name)
            else if is_request_error e
            then HTTPException 503 ("Service " ++ service_name ++ " unavailable")
            else Httpx e), w1)
  | HResp r =>
      let hdrs := hpop "transfer-encoding" (hpop "content-encoding" (hr_headers r)) in
      if startswith (default "" (hget "content-type" (hr_headers r))) "application/json"
      then match hr_json r with
           | Some j => (inl (json_response (hr_status r) j hdrs), w1)
           | None => (inr JSONDecodeError, w1)
           end
      else (inl (json_response (hr_status r) (JStr (hr_text r)) hdrs), w1)
  end.
Proof.
  intros Hs o w1. unfold proxy_request. unfold_M. world_simpl. rewrite Hs.
  change {| o_method := rq_method req; o_url := base ++ path;
            o_headers := dict_set "X-Forwarded-For" (rq_client req)
                           (dict_set "X-Request-ID" (rq_request_id req) (rq_headers req));
            o_params := rq_query req;
            o_content := if existsb (String.eqb (rq_method req)) ["POST"; "PUT"; "PATCH"]
                         then Some (rq_body req) else None;
            o_timeout := 30 |} with o.
  world_simpl.
  destruct (w_net w (w_clock w) o) as [r|e].
  - destruct (startswith _ _); [destruct (hr_json r)|]; reflexivity.
  - destruct (is_timeout e); [reflexivity|]. destruct (is_request_error e); reflexivity.
Qed.

Lemma relay_headers_clean (st : Z) (body : json) (hs : list (string * string)) :
  let resp := json_response st body (hpop "transfer-encoding" (hpop "content-encoding" hs)) in
  dict_get "content-encoding" (r_headers resp) = None /\
  dict_get "transfer-encoding" (r_headers resp) = None.
Proof.
  cbn [json_response r_headers]. rewrite !dict_get_app, !dict_get_hpop. cbn.
  split; destruct (hget "content-type" _); reflexivity.
Qed.

(** [proxy_request] to a configured service makes exactly one upstream
    call, whatever its outcome. The call carries the client's headers with
    [X-Request-ID] set to the request id and [X-Forwarded-For] set to the
    client address; every other header is passed on unchanged. A body is
    sent for POST, PUT and PATCH and for no other method. *)
Theorem proxy_forwards_request (service_name path base : string) (req : request) (w : world) :
  dict_get service_name SERVICES = Some base ->
  let o := proxy_out base path req in
  w_log (snd (proxy_request service_name path req w)) =
    (w_log w ++ [EProxy service_name; EHttp o])%list /\
  dict_get "X-Request-ID" (o_headers o) = Some (rq_request_id req) /\
  dict_get "X-Forwarded-For" (o_headers o) = Some (rq_client req) /\
  (forall k, k <> "X-Request-ID" -> k <> "X-Forwarded-For" ->
             dict_get k (o_headers o) = dict_get k (rq_headers req)) /\
  (In (rq_method req) ["POST"; "PUT"; "PATCH"] -> o_content o = Some (rq_body req)) /\
  (~ In (rq_method req) ["POST"; "PUT"; "PATCH"] -> o_content o = None).
Proof.
  intros Hs o. split; [|split; [|split; [|split; [|split]]]].
  - rewrite (proxy_request_run service_name path base req w Hs). cbv zeta. fold o.
    assert (Hl : w_log (add_event (EHttp o) (add_event (EProxy service_name) w)) =
                 (w_log w ++ [EProxy service_name; EHttp o])%list).
    { cbn [add_event w_log]. rewrite <- app_assoc. reflexivity. }
    destruct (w_net w (w_clock w) o) as [r|e].
    + cbv zeta. destruct (startswith _ _); [destruct (hr_json r)|]; exact Hl.
    + exact Hl.
  - cbn [o proxy_out o_headers].
    rewrite dict_get_set_other by discriminate. apply dict_get_set_same.
  - cbn [o proxy_out o_headers]. apply dict_get_set_same.
  - intros k H1 H2. cbn [o proxy_out o_headers].
    rewrite !dict_get_set_other by assumption. reflexivity.
  - intros Hin. cbn [o proxy_out o_content].
    replace (existsb (String.eqb (rq_method req)) ["POST"; "PUT"; "PATCH"]) with true;
      [reflexivity|].
    symmetry. apply existsb_exists. exists (rq_method req). split; [exact Hin|].
    apply String.eqb_refl.
  - intros Hnin. cbn [o proxy_out o_content].
    destruct (existsb (String.eqb (rq_method req)) ["POST"; "PUT"; "PATCH"]) eqn:He;
      [|reflexivity].
    apply existsb_exists in He as (m & Hm & Heq). apply String.eqb_eq in Heq as <-.
    contradiction.
Qed.

(** When the service answers, [proxy_request] relays its status, drops the
    [content-encoding] and [transfer-encoding] headers, and passes the body
    on as JSON when the content type starts with [application/json] and as
    text otherwise. A response announced as JSON whose body does not decode
    makes [proxy_request] raise [JSONDecodeError], which is not one of the
    two handled [httpx] errors. *)
Theorem proxy_relays_response (service_name path base : string) (req : request) (w : world)
    (r : http_response) :
  dict_get service_name SERVICES = Some base ->
  w_net w (w_clock w) (proxy_out base path req) = HResp r ->
  let json_type := startswith (default "" (hget "content-type" (hr_headers r))) "application/json" in
  match fst (proxy_request service_name path req w) with
  | inl resp =>
      r_status resp = hr_status r /\
      dict_get "content-encoding" (r_headers resp) = None /\
      dict_get "transfer-encoding" (r_headers resp) = None /\
      r_body resp = (if json_type then default JNull (hr_json r) else JStr (hr_text r)) /\
      (json_type = true -> hr_json r <> None)
  | inr e => e = JSONDecodeError /\ json_type = true /\ hr_json r = None
  end.
Proof.
  intros Hs Hnet json_type.
  rewrite (proxy_request_run service_name path base req w Hs). cbv zeta. rewrite Hnet.
  fold json_type. destruct json_type.
  - destruct (hr_json r) as [j|] eqn:Hj; cbn [fst].
    + destruct (relay_headers_clean (hr_status r) j (hr_headers r)) as [H1 H2].
      repeat split; [exact H1|exact H2|discriminate].
    + repeat split.
  - cbn [fst].
    destruct (relay_headers_clean (hr_status r) (JStr (hr_text r)) (hr_headers r)) as [H1 H2].
    repeat split; [exact H1|exact H2|discriminate].
Qed.

(** Once the rate limiter has let a request in, an exception other than an
    [HTTPException] escaping its handler (such as the [JSONDecodeError] of
    [proxy_request]) reaches the client as the plain 500 response, without
    the tracing headers. *)
Theorem handler_exception_is_500 (request_id process_time timestamp : string) (req : request)
    (w w1 w2 : world) (e : exc) :
  is_allowed rate_limiter (client_identifier req) w = (inl true, w1) ->
  route timestamp (set_request_id request_id req) w1 = (inr e, w2) ->
  (forall s d, e <> HTTPException s d) ->
  serve request_id process_time timestamp req w = (inl internal_server_error, w2).
Proof.
  intros Ha Hr He. unfold serve, logging_and_rate_limit_middleware. cbv zeta.
  change (rq_client req ++ ":" ++ default "unknown" (hget "user-agent" (rq_headers req)))
    with (client_identifier req).
  unfold try_catch. cbv [mbind M_bind mret M_ret]. rewrite Ha. cbn [negb].
  unfold app_inner, try_catch. rewrite Hr.
  destruct e as [| | | | |s d]; try reflexivity. exfalso. exact (He s d eq_refl).
Qed.

Lemma proxy_forwards_request_witness :
  let req := {| rq_method := "POST"; rq_path := "/billing/invoices"; rq_headers := [];
                rq_query := []; rq_body := "{}"; rq_client := "1.2.3.4"; rq_request_id := "rid" |} in
  o_content (proxy_out "http://billing-service:8005" "/invoices" req) = Some "{}".
Proof.
  intros req.
  destruct (proxy_forwards_request "billing" "/invoices" "http://billing-service:8005" req
              (fresh_world true (token_net 0)) eq_refl) as (_ & _ & _ & _ & Hpost & _).
  apply Hpost. left. reflexivity.
Defined.

Lemma proxy_relays_response_witness :
  fst (proxy_request "billing" "/invoices" (get_request "/billing/invoices" [])
         (fresh_world true bad_json_net)) = inr JSONDecodeError.
Proof.
  pose proof (proxy_relays_response "billing" "/invoices" "http://billing-service:8005"
                (get_request "/billing/invoices" []) (fresh_world true bad_json_net)
                {| hr_status := 200; hr_headers := [("content-type", "application/json")];
                   hr_json := None; hr_text := "<html>"; hr_elapsed := 0 |}
                eq_refl eq_refl) as H.
  cbv zeta in H.
  destruct (fst (proxy_request "billing" "/invoices" (get_request "/billing/invoices" [])
                  (fresh_world true bad_json_net))) as [resp|e].
  - destruct H as (_ & _ & _ & _ & Hj). exfalso. exact (Hj eq_refl eq_refl).
  - destruct H as [-> _]. reflexivity.
Defined.

Lemma handler_exception_is_500_witness :
  let req := {| rq_method := "POST"; rq_path := "/auth/login"; rq_headers := [];
                rq_query := []; rq_body := "{}"; rq_client := "1.2.3.4"; rq_request_id := "" |} in
  fst (serve "rid" "0.001" "ts" req (fresh_world true bad_json_net)) = inl internal_server_error.
Proof.
  intros req.
  set (w := fresh_world true bad_json_net).
  set (w1 := snd (is_allowed rate_limiter (client_identifier req) w)).
  set (w2 := snd (route "ts" (set_request_id "rid" req) w1)).
  rewrite (handler_exception_is_500 "rid" "0.001" "ts" req w w1 w2 JSONDecodeError).
  - reflexivity.
  - vm_compute. reflexivity.
  - vm_compute. reflexivity.
  - discriminate.
Defined.

(** ** Websocket registry *)












(** ** Rate limiter *)

(** A rate-limit check touches only its own key [rate_limit:<identifier>]:
    every other entry of the store, in particular the counter of the same
    address with another user agent, is left as it was. *)
Theorem is_allowed_touches_only_its_key (self : RateLimiter) (identifier : string)
    (w : world) (k : string) :
  k <> "rate_limit:" ++ identifier ->
  w_store (snd (is_allowed self identifier w)) !! k = w_store w !! k.
Proof.
  intros Hk. rewrite is_allowed_run. cbv zeta.
  destruct (negb (w_up w)); [reflexivity|].
  unfold expire_in.
  destruct (lookup_live w ("rate_limit:" ++ identifier)) as [[n|j]|];
    destruct (0 <? window self); cbn [snd set_store w_store add_event];
    first [apply lookup_insert_ne | apply lookup_delete_ne]; congruence.
Qed.

(** With a non-positive window, [EXPIRE] deletes the counter right after
    [INCR] sets it, so every check counts 1: starting from no counter, a
    limiter whose limit is at least 1 allows every request. *)
Theorem nonpositive_window_never_limits (self : RateLimiter) (identifier : string)
    (times : list Z) (w : world) :
  window self <= 0 -> 1 <= max_requests self -> w_up w = true ->
  w_store w !! ("rate_limit:" ++ identifier) = None ->
  Forall (fun r => r = inl true) (fst (calls_at self identifier times w)).
Proof.
  intros Hw Hmax. revert w. induction times as [|t ts IH]; intros w Hup Hnone; cbn [calls_at].
  - constructor.
  - rewrite is_allowed_run. cbv zeta.
    change (w_up (at_time t w)) with (w_up w). rewrite Hup. cbn [negb].
    unfold lookup_live. change (w_store (at_time t w)) with (w_store w). rewrite Hnone.
    unfold expire_in. rewrite (proj2 (Z.ltb_ge 0 (window self)) Hw).
    destruct (calls_at self identifier ts
                (set_store (delete ("rate_limit:" ++ identifier) (w_store (at_time t w)))
                   (add_event (ECache "EXPIRE" ("rate_limit:" ++ identifier))
                      (add_event (ECache "INCR" ("rate_limit:" ++ identifier))
                         (add_event (ERateCheck identifier) (at_time t w))))))
      as [rs w2] eqn:Hrun.
    cbn [fst]. constructor.
    + f_equal. apply Z.leb_le. exact Hmax.
    + change rs with (fst (rs, w2)). rewrite <- Hrun. apply IH; [exact Hup|].
      cbn [set_store w_store at_time]. apply lookup_delete_eq.
Qed.

(** A request the rate limiter refuses is answered with the 429 response
    and nothing else happens: no route, no verification, no upstream call
    runs after the check. *)
Theorem rejected_request_stops_at_rate_limit (request_id process_time timestamp : string)
    (req : request) (w w1 : world) :
  is_allowed rate_limiter (client_identifier req) w = (inl false, w1) ->
  serve request_id process_time timestamp req w = (inl rate_limit_exceeded, w1).
Proof.
  intros Ha. unfold serve, logging_and_rate_limit_middleware. cbv zeta.
  change (rq_client req ++ ":" ++ default "unknown" (hget "user-agent" (rq_headers req)))
    with (client_identifier req).
  unfold try_catch. cbv [mbind M_bind mret M_ret]. rewrite Ha. reflexivity.
Qed.

Lemma is_allowed_touches_only_its_key_witness :
  let w := exhausted_world (token_net 0) in
  w_store (snd (is_allowed rate_limiter "1.2.3.4:curl" w)) !! "rate_limit:1.2.3.4:unknown" =
    Some {| e_val := RInt 100; e_exp := Some 3600 |}.
Proof.
  intros w.
  rewrite (is_allowed_touches_only_its_key rate_limiter "1.2.3.4:curl" w
             "rate_limit:1.2.3.4:unknown" ltac:(discriminate)).
  reflexivity.
Defined.

Lemma nonpositive_window_never_limits_witness :
  Forall (fun r => r = inl true)
    (fst (calls_at {| max_requests := 1; window := 0 |} "1.2.3.4:unknown" [0; 1; 2]
            (fresh_world true (token_net 0)))).
Proof.
  apply nonpositive_window_never_limits; cbn; [lia|lia|reflexivity|reflexivity].
Defined.

Lemma rejected_request_stops_at_rate_limit_witness :
  fst (serve "rid" "0.001" "ts" (get_request "/clients/1" [("Authorization", "Bearer tok")])
         (exhausted_world (token_net 1000))) = inl rate_limit_exceeded.
Proof.
  rewrite (rejected_request_stops_at_rate_limit "rid" "0.001" "ts"
             (get_request "/clients/1" [("Authorization", "Bearer tok")])
             (exhausted_world (token_net 1000))
             (snd (is_allowed rate_limiter "1.2.3.4:unknown" (exhausted_world (token_net 1000))))).
  - reflexivity.
  - vm_compute. reflexivity.
Defined.
